(** * On-chain Tic-Tac-Toe front end: the [App] component of
    [frontend/src/App.js]

    The component keeps eight pieces of React state, talks to a wallet
    provider and to a contract object, and has six asynchronous
    operations ([init] inside the effect, [updateGameState],
    [connectWallet], [joinGame], [makeMove], [addMonadNetwork]), three
    event listeners and one click handler per board cell.

    The embedding is shallow.  React state is a record; an asynchronous
    operation is a function in a small state-and-exception monad [js];
    every [await] records the state that is on screen while the operation
    is suspended; the result of every external call (wallet, chain) is an
    argument of the operation.  A function defined in the body of the
    component closes over the values of the render that created it: that
    render is an explicit argument [r].

    In the file as shipped, line 79 and the [board.map] of lines 190-204
    each lack one closing parenthesis, so the file does not parse.  The
    embedding reads both with the parenthesis in the only place the
    grammar leaves for it: after the inner [row.map(...)]. *)

From Stdlib Require Import ZArith List String Bool Lia DecimalString.
Import ListNotations.

Local Open Scope list_scope.
Local Open Scope string_scope.

(** ** JavaScript values and errors *)

(** The values stored in a board cell: the number [0] or one of the
    strings ['X'], ['O']. *)
Inductive jsval : Type :=
| JNum (n : Z)
| JStr (s : string).

(** [cell === 0] on a displayed cell. *)
Definition is_zero (v : jsval) : bool :=
  match v with
  | JNum n => (n =? 0)%Z
  | JStr _ => false
  end.

(** An [Error] object; only [err.message] is ever read. *)
Record error : Type := mkError { err_message : string }.

(** How a promise settles. *)
Inductive settled (A : Type) : Type :=
| Fulfilled (a : A)
| Rejected (e : error).
Arguments Fulfilled {A} a.
Arguments Rejected {A} e.

(** A promise that takes part in [Promise.all]: the instant at which it
    settles matters, because the first rejection wins. *)
Record promise (A : Type) : Type := mkPromise
  { settles_at : nat;
    outcome : settled A }.
Arguments mkPromise {A} settles_at outcome.
Arguments settles_at {A} p.
Arguments outcome {A} p.

(** [String.prototype.includes]. *)
Fixpoint includes (needle hay : string) : bool :=
  if String.prefix needle hay then true
  else match hay with
       | EmptyString => false
       | String _ rest => includes needle rest
       end.

(** Reading a property of [null] throws a [TypeError]; the text is the one
    V8 produces. *)
Definition TypeError_null (prop : string) : error :=
  mkError ("Cannot read properties of null (reading '" ++ prop ++ "')").

(** ** React state of the component *)

(** A contract object created by [new ethers.Contract]; two objects are
    the same object iff they have the same identity. *)
Definition handle : Type := nat.

Record AppState : Type := mkAppState
  { contract : option handle;
    account : option string;
    board : list (list jsval);
    gameState : string;
    currentTurn : string;
    loading : bool;
    message : string;
    stakeAmount : string }.

(** The arguments of the eight [useState] calls. *)
Definition initialState : AppState :=
  {| contract := None;
     account := None;
     board := repeat (repeat (JNum 0) 3) 3;
     gameState := "waiting";
     currentTurn := "X";
     loading := false;
     message := "Connect your wallet to play";
     stakeAmount := "0" |}.

(** ** The world outside React state *)

Inductive event_name : Type := GameStarted | MoveMade | GameEnded.

Definition event_name_eqb (a b : event_name) : bool :=
  match a, b with
  | GameStarted, GameStarted | MoveMade, MoveMade | GameEnded, GameEnded => true
  | _, _ => false
  end.

(** A listener registered with [gameContract.on]: the contract object it
    is attached to, the event, and the render whose values its body closes
    over. *)
Record subscription : Type := mkSubscription
  { sub_contract : handle;
    sub_event : event_name;
    sub_render : AppState }.

(** Transactions requested from the contract. *)
Inductive call : Type :=
| CallJoinGame (c : handle) (value : Z)
| CallMakeMove (c : handle) (row col : Z).

Record world : Type := mkWorld
  { ui : AppState;
    next_handle : handle;
    listeners : list subscription;
    calls : list call;
    trace : list AppState }.

Definition initialWorld : world :=
  {| ui := initialState; next_handle := 0; listeners := [];
     calls := []; trace := [] |}.

(** ** The monad of component code *)

Inductive completion (A : Type) : Type :=
| Normal (a : A)
| Throw (e : error).
Arguments Normal {A} a.
Arguments Throw {A} e.

Definition js (A : Type) : Type := world -> completion A * world.

Definition ret {A} (a : A) : js A := fun w => (Normal a, w).

Definition bind {A B} (c : js A) (k : A -> js B) : js B :=
  fun w =>
    match c w with
    | (Normal a, w1) => k a w1
    | (Throw e, w1) => (Throw e, w1)
    end.

(** Running a computation: the final world. *)
Definition exec {A} (c : js A) (w : world) : world := snd (c w).

Declare Scope js_scope.
Delimit Scope js_scope with js.
Notation "x <- c ;; k" := (bind c (fun x => k))
  (at level 61, c at next level, right associativity) : js_scope.
Notation "' pat <- c ;; k" := (bind c (fun x => match x with pat => k end))
  (at level 61, pat pattern, c at next level, right associativity) : js_scope.
Notation "c ;; k" := (bind c (fun _ => k))
  (at level 61, right associativity) : js_scope.
Local Open Scope js_scope.

(** [try { body } catch (err) { handler err }]. *)
Definition try_catch {A} (body : js A) (handler : error -> js A) : js A :=
  fun w =>
    match body w with
    | (Normal a, w1) => (Normal a, w1)
    | (Throw e, w1) => handler e w1
    end.

(** [try { body } finally { fin }]: [fin] runs on both exits and the
    completion of [body] is kept unless [fin] itself throws. *)
Definition try_finally {A} (body : js A) (fin : js unit) : js A :=
  fun w =>
    match body w with
    | (res, w1) =>
        match fin w1 with
        | (Normal _, w2) => (res, w2)
        | (Throw e, w2) => (Throw e, w2)
        end
    end.

(** [try { body } catch (err) { handler err } finally { fin }]. *)
Definition try_catch_finally {A}
    (body : js A) (handler : error -> js A) (fin : js unit) : js A :=
  try_finally (try_catch body handler) fin.

Definition modify_ui (f : AppState -> AppState) : js unit :=
  fun w =>
    (Normal tt,
     {| ui := f (ui w); next_handle := next_handle w;
        listeners := listeners w; calls := calls w; trace := trace w |}).

(** The world while an operation is suspended: the state now in place is
    what is on screen, and it is added to the record of displayed states. *)
Definition suspended (w : world) : world :=
  {| ui := ui w; next_handle := next_handle w;
     listeners := listeners w; calls := calls w;
     trace := trace w ++ [ui w] |}.

(** [await p]: the operation is suspended, then resumes with the value of
    [p] or with its rejection thrown. *)
Definition await {A} (p : settled A) : js A :=
  fun w =>
    (match p with Fulfilled a => Normal a | Rejected e => Throw e end,
     suspended w).

(** [c.prop] for the contract captured by a render: a [TypeError] when the
    state still holds [null]. *)
Definition member (c : option handle) (prop : string) : js handle :=
  fun w =>
    match c with
    | Some h => (Normal h, w)
    | None => (Throw (TypeError_null prop), w)
    end.

(** *** State setters

    [with_x v s] is the state [s] with the field [x] replaced by [v];
    [setX v] stores it. *)

Definition with_contract (c : option handle) (s : AppState) : AppState :=
  {| contract := c; account := account s; board := board s;
     gameState := gameState s; currentTurn := currentTurn s; loading := loading s;
     message := message s; stakeAmount := stakeAmount s |}.

Definition with_account (a : option string) (s : AppState) : AppState :=
  {| contract := contract s; account := a; board := board s;
     gameState := gameState s; currentTurn := currentTurn s; loading := loading s;
     message := message s; stakeAmount := stakeAmount s |}.

Definition with_board (b : list (list jsval)) (s : AppState) : AppState :=
  {| contract := contract s; account := account s; board := b;
     gameState := gameState s; currentTurn := currentTurn s; loading := loading s;
     message := message s; stakeAmount := stakeAmount s |}.

Definition with_gameState (g : string) (s : AppState) : AppState :=
  {| contract := contract s; account := account s; board := board s;
     gameState := g; currentTurn := currentTurn s; loading := loading s;
     message := message s; stakeAmount := stakeAmount s |}.

Definition with_currentTurn (t : string) (s : AppState) : AppState :=
  {| contract := contract s; account := account s; board := board s;
     gameState := gameState s; currentTurn := t; loading := loading s;
     message := message s; stakeAmount := stakeAmount s |}.

Definition with_loading (l : bool) (s : AppState) : AppState :=
  {| contract := contract s; account := account s; board := board s;
     gameState := gameState s; currentTurn := currentTurn s; loading := l;
     message := message s; stakeAmount := stakeAmount s |}.

Definition with_message (m : string) (s : AppState) : AppState :=
  {| contract := contract s; account := account s; board := board s;
     gameState := gameState s; currentTurn := currentTurn s; loading := loading s;
     message := m; stakeAmount := stakeAmount s |}.

Definition with_stakeAmount (a : string) (s : AppState) : AppState :=
  {| contract := contract s; account := account s; board := board s;
     gameState := gameState s; currentTurn := currentTurn s; loading := loading s;
     message := message s; stakeAmount := a |}.

Definition setContract (c : option handle) : js unit := modify_ui (with_contract c).
Definition setAccount (a : option string) : js unit := modify_ui (with_account a).
Definition setBoard (b : list (list jsval)) : js unit := modify_ui (with_board b).
Definition setGameState (g : string) : js unit := modify_ui (with_gameState g).
Definition setCurrentTurn (t : string) : js unit := modify_ui (with_currentTurn t).
Definition setLoading (l : bool) : js unit := modify_ui (with_loading l).
Definition setMessage (m : string) : js unit := modify_ui (with_message m).
Definition setStakeAmount (a : string) : js unit := modify_ui (with_stakeAmount a).

(** ** [Promise.all] over the three reads *)

(** Of two pending rejections the one that settles first is kept; on a tie
    the one listed first. *)
Definition sooner (x y : option (nat * error)) : option (nat * error) :=
  match x, y with
  | Some (t1, _), Some (t2, _) => if (t2 <? t1)%nat then y else x
  | Some _, None => x
  | None, _ => y
  end.

Definition rejection {A} (p : promise A) : option (nat * error) :=
  match outcome p with
  | Rejected e => Some (settles_at p, e)
  | Fulfilled _ => None
  end.

(** [Promise.all([pa, pb, pc])]: fulfilled with the three values when all
    three are fulfilled, otherwise rejected with the reason of the promise
    that rejects first. *)
Definition Promise_all {A B C}
    (pa : promise A) (pb : promise B) (pc : promise C) : settled (A * B * C) :=
  match sooner (sooner (rejection pa) (rejection pb)) (rejection pc) with
  | Some (_, e) => Rejected e
  | None =>
      match outcome pa, outcome pb, outcome pc with
      | Fulfilled a, Fulfilled b, Fulfilled c => Fulfilled (a, b, c)
      | Rejected e, _, _ | _, Rejected e, _ | _, _, Rejected e => Rejected e
      end
  end.

(** ** The contract surface used by the component *)

Module Contract.

(** What the three view calls of one refresh return. *)
Record reads : Type := mkReads
  { getBoard : promise (list (list Z));
    currentTurn : promise Z;
    gameState : promise Z }.

(** A submitted transaction: [tx.wait()] settles when it is mined. *)
Record tx : Type := mkTx { wait : settled unit }.

End Contract.

(** ** [updateGameState] (lines 71-85) *)

(** [cell === 0 ? 0 : cell === 1 ? 'X' : 'O'] *)
Definition cell_view (cell : Z) : jsval :=
  if (cell =? 0)%Z then JNum 0 else if (cell =? 1)%Z then JStr "X" else JStr "O".

(** [turn === 0 ? 'X' : 'O'] *)
Definition turn_view (turn : Z) : string :=
  if (turn =? 0)%Z then "X" else "O".

(** [state === 0 ? 'waiting' : state === 1 ? 'playing' : 'completed'] *)
Definition state_view (state : Z) : string :=
  if (state =? 0)%Z then "waiting"
  else if (state =? 1)%Z then "playing" else "completed".

(** The [try] block. *)
Definition updateGameState_try (r : AppState) (rd : Contract.reads) : js unit :=
  _ <- member (contract r) "getBoard" ;;
  '(boardState, turn, state) <-
     await (Promise_all (Contract.getBoard rd) (Contract.currentTurn rd)
                        (Contract.gameState rd)) ;;
  setBoard (map (fun row => map cell_view row) boardState) ;;
  setCurrentTurn (turn_view turn) ;;
  setGameState (state_view state).

Definition updateGameState (r : AppState) (rd : Contract.reads) : js unit :=
  try_catch
    (updateGameState_try r rd)
    (fun err => setMessage (err_message err)).

(** ** Remaining primitives *)

(** A synchronous call into a library, which may throw. *)
Definition sync {A} (c : completion A) : js A := fun w => (c, w).

(** Calling an [async] function without awaiting it: the caller never sees
    an exception, whatever happens inside. *)
Definition detached (c : js unit) : js unit :=
  fun w => match c w with (_, w1) => (Normal tt, w1) end.

(** Calling a transaction method of the contract object [c]. *)
Definition submit (c : call) : js unit :=
  fun w =>
    (Normal tt,
     {| ui := ui w; next_handle := next_handle w;
        listeners := listeners w; calls := calls w ++ [c];
        trace := trace w |}).

(** [new ethers.Contract(...)]: a new object, distinct from all earlier
    ones.  Whether the construction throws is part of the oracle of
    [init]. *)
Definition new_Contract : js handle :=
  fun w =>
    (Normal (next_handle w),
     {| ui := ui w; next_handle := S (next_handle w);
        listeners := listeners w; calls := calls w; trace := trace w |}).

(** [c.on(ev, listener)] where the listener was created by render [r]. *)
Definition on (c : handle) (ev : event_name) (r : AppState) : js unit :=
  fun w =>
    (Normal tt,
     {| ui := ui w; next_handle := next_handle w;
        listeners := listeners w ++ [mkSubscription c ev r];
        calls := calls w; trace := trace w |}).

(** [c.removeAllListeners()]: only the listeners of the object [c]. *)
Definition removeAllListeners (c : handle) : js unit :=
  fun w =>
    (Normal tt,
     {| ui := ui w; next_handle := next_handle w;
        listeners :=
          filter (fun s => negb (Nat.eqb (sub_contract s) c)) (listeners w);
        calls := calls w; trace := trace w |}).

(** [x === account] for a string [x]: [account] may still be [null]. *)
Definition is_account (x : string) (a : option string) : bool :=
  match a with
  | Some y => String.eqb x y
  | None => false
  end.

(** The comparison React applies to the dependency [account].  [None]
    stands for both [null] and [undefined], which React tells apart: the
    one state in which they meet is after [connectWallet] was answered
    with an empty list of accounts. *)
Definition same_account (a b : option string) : bool :=
  match a, b with
  | Some x, Some y => String.eqb x y
  | None, None => true
  | _, _ => false
  end.

(** Truthiness of [account]: [null] and the empty string are falsy. *)
Definition truthy (a : option string) : bool :=
  match a with
  | Some EmptyString | None => false
  | Some _ => true
  end.

Module Wallet.

(** [getProvider()] of [./contract] and the account request. *)
Record connect : Type := mkConnect
  { getProvider : completion unit;
    eth_requestAccounts : settled (list string) }.

End Wallet.

(** ** [connectWallet] (lines 87-99) *)

Definition connectWallet_try (o : Wallet.connect) : js unit :=
  setLoading true ;;
  sync (Wallet.getProvider o) ;;
  accounts <- await (Wallet.eth_requestAccounts o) ;;
  setAccount (hd_error accounts) ;;
  setMessage "Connected to wallet".

Definition connectWallet (o : Wallet.connect) : js unit :=
  try_catch_finally
    (connectWallet_try o)
    (fun err => setMessage (err_message err))
    (setLoading false).

(** ** [joinGame] (lines 101-114) *)

Module Join.

(** What [contract.stakeAmount()] returns, and what [contract.joinGame]
    returns for a given payment. *)
Record oracle : Type := mkOracle
  { stakeAmount : settled Z;
    joinGame : Z -> settled Contract.tx }.

End Join.

Definition joinGame_try (r : AppState) (o : Join.oracle) : js unit :=
  setLoading true ;;
  setMessage "Waiting for transaction..." ;;
  c <- member (contract r) "joinGame" ;;
  value <- await (Join.stakeAmount o) ;;
  submit (CallJoinGame c value) ;;
  tx <- await (Join.joinGame o value) ;;
  await (Contract.wait tx).

Definition joinGame (r : AppState) (o : Join.oracle) : js unit :=
  try_catch_finally
    (joinGame_try r o)
    (fun err =>
       setMessage (if includes "user rejected" (err_message err)
                   then "Transaction cancelled"
                   else err_message err))
    (setLoading false).

(** ** [makeMove] (lines 116-127) *)

Definition makeMove_try (r : AppState) (row col : Z)
    (send : Z -> Z -> settled Contract.tx) : js unit :=
  setLoading true ;;
  setMessage "Processing your move..." ;;
  c <- member (contract r) "makeMove" ;;
  submit (CallMakeMove c row col) ;;
  tx <- await (send row col) ;;
  await (Contract.wait tx).

Definition makeMove (r : AppState) (row col : Z)
    (send : Z -> Z -> settled Contract.tx) : js unit :=
  try_catch_finally
    (makeMove_try r row col send)
    (fun err => setMessage (err_message err))
    (setLoading false).

(** ** [addMonadNetwork] (lines 129-148) *)

Definition addMonadNetwork_try (request : settled unit) : js unit :=
  await request.

Definition addMonadNetwork (request : settled unit) : js unit :=
  try_catch
    (addMonadNetwork_try request)
    (fun err => setMessage (err_message err)).

(** ** The board cells (lines 186-205) *)

(** The cell drawn at row [i], column [j] by render [r], if any: the board
    is drawn only for a connected account and a game in progress. *)
Definition cell_rendered (r : AppState) (i j : nat) : option jsval :=
  if truthy (account r) && String.eqb (gameState r) "playing" then
    match nth_error (board r) i with
    | Some row => nth_error row j
    | None => None
    end
  else None.

(** [onClick={() => !loading && cell === 0 && makeMove(i, j)}] *)
Definition cellClick (r : AppState) (i j : nat)
    (send : Z -> Z -> settled Contract.tx) : js unit :=
  match cell_rendered r i j with
  | Some cell =>
      if negb (loading r) && is_zero cell
      then detached (makeMove r (Z.of_nat i) (Z.of_nat j) send)
      else ret tt
  | None => ret tt
  end.

(** ** Event listeners (lines 37-50) *)

Definition onGameStarted (r : AppState) (playerX playerO : string)
    (rd : Contract.reads) : js unit :=
  setMessage (if is_account playerO (account r)
              then "Game started! You are O"
              else "Game started! You are X") ;;
  detached (updateGameState r rd).

Definition onMoveMade (r : AppState) (rd : Contract.reads) : js unit :=
  detached (updateGameState r rd).

Definition onGameEnded (r : AppState) (winner : string) (isDraw : bool)
    (rd : Contract.reads) : js unit :=
  setMessage (if isDraw then "Game ended in a draw!"
              else if is_account winner (account r) then "You won!"
                   else "You lost!") ;;
  detached (updateGameState r rd).

(** An event of the contract with its arguments. *)
Inductive event : Type :=
| EvGameStarted (playerX playerO : string)
| EvMoveMade
| EvGameEnded (winner : string) (isDraw : bool).

Definition event_kind (ev : event) : event_name :=
  match ev with
  | EvGameStarted _ _ => GameStarted
  | EvMoveMade => MoveMade
  | EvGameEnded _ _ => GameEnded
  end.

(** The body of a listener, run with the values of the render that
    registered it. *)
Definition listener_body (s : subscription) (ev : event)
    (rd : Contract.reads) : js unit :=
  match ev with
  | EvGameStarted playerX playerO => onGameStarted (sub_render s) playerX playerO rd
  | EvMoveMade => onMoveMade (sub_render s) rd
  | EvGameEnded winner isDraw => onGameEnded (sub_render s) winner isDraw rd
  end.

(** The contract emits [ev]: every listener still registered for that
    event runs, in the order of registration. *)
Definition emit (ev : event) (rd : Contract.reads) : js unit :=
  fun w =>
    (Normal tt,
     fold_left
       (fun acc s =>
          if event_name_eqb (sub_event s) (event_kind ev)
          then exec (listener_body s ev rd) acc
          else acc)
       (listeners w) w).

(** ** The effect: [init] and its cleanup (lines 17-69) *)

Module Init.

(** What the calls made by one run of [init] return: [getProvider()],
    [provider.getNetwork()] (the chain id), [provider.getSigner()] together
    with the construction of the contract object, [stakeAmount()],
    [provider.listAccounts()], and the three reads of the refresh that
    [init] starts when an account is already authorized. *)
Record oracle : Type := mkOracle
  { getProvider : completion unit;
    getNetwork : settled Z;
    getSigner : completion unit;
    stakeAmount : settled Z;
    listAccounts : settled (list string);
    refresh : Contract.reads }.

End Init.

Section Effect.

(** [ethers.utils.formatEther]. *)
Variable formatEther : Z -> string.

Definition init_try (r : AppState) (o : Init.oracle) : js unit :=
  sync (Init.getProvider o) ;;
  chainId <- await (Init.getNetwork o) ;;
  (if negb (chainId =? 1234)%Z
   then setMessage "Please switch to Monad Testnet in MetaMask"
   else ret tt) ;;
  sync (Init.getSigner o) ;;
  gameContract <- new_Contract ;;
  setContract (Some gameContract) ;;
  stake <- await (Init.stakeAmount o) ;;
  setStakeAmount (formatEther stake) ;;
  on gameContract GameStarted r ;;
  on gameContract MoveMade r ;;
  on gameContract GameEnded r ;;
  accounts <- await (Init.listAccounts o) ;;
  match accounts with
  | a :: _ =>
      setAccount (Some a) ;;
      setMessage "Connected to wallet" ;;
      detached (updateGameState r (Init.refresh o))
  | [] => ret tt
  end.

Definition init (r : AppState) (o : Init.oracle) : js unit :=
  try_catch
    (init_try r o)
    (fun err =>
       setMessage (if includes "chain not supported" (err_message err)
                   then "Please connect to Monad Testnet"
                   else err_message err)).

(** The body of the effect starts [init] and does not wait for it. *)
Definition effect (r : AppState) (o : Init.oracle) : js unit :=
  detached (init r o).

(** [() => contract?.removeAllListeners()], with the [contract] of the
    render whose effect this cleans up. *)
Definition cleanup (r : AppState) : js unit :=
  match contract r with
  | Some c => removeAllListeners c
  | None => ret tt
  end.

(** The dependency list is [[account]]: when the account of the latest
    render differs from that of the render [r] whose effect is in place,
    React runs the cleanup of [r] and then the effect of the latest
    render. *)
Definition rerun (r : AppState) (o : Init.oracle) : js unit :=
  fun w =>
    if same_account (account (ui w)) (account r) then (Normal tt, w)
    else (cleanup r ;; effect (ui w) o) w.

(** Disposal of the component runs the cleanup in place. *)
Definition unmount (r : AppState) : js unit := cleanup r.

End Effect.

(** The part of the state the specification calls the game view. *)
Definition gameView (s : AppState) : list (list jsval) * string * string :=
  (board s, currentTurn s, gameState s).

(** ** Notions used in the statements *)

(** [keeps I c]: started in a state that satisfies [I], the computation
    [c] ends (normally or not) in a state that satisfies [I], and every
    state displayed while it was suspended satisfies [I]. *)
Definition keeps {A} (I : AppState -> Prop) (c : js A) : Prop :=
  forall w, I (ui w) ->
    I (ui (exec c w)) /\
    exists shown, trace (exec c w) = (trace w ++ shown)%list /\ Forall I shown.

(** The promise awaited by a refresh. *)
Definition all_reads (rd : Contract.reads) : settled (list (list Z) * Z * Z) :=
  Promise_all (Contract.getBoard rd) (Contract.currentTurn rd)
              (Contract.gameState rd).

(** One of the three reads is rejected. *)
Definition read_fails (rd : Contract.reads) : Prop :=
  rejection (Contract.getBoard rd) <> None \/
  rejection (Contract.currentTurn rd) <> None \/
  rejection (Contract.gameState rd) <> None.

(** [e] is the reason of a rejected read, and no read was rejected before
    that one. *)
Definition first_read_error (rd : Contract.reads) (e : error) : Prop :=
  exists t,
    (rejection (Contract.getBoard rd) = Some (t, e) \/
     rejection (Contract.currentTurn rd) = Some (t, e) \/
     rejection (Contract.gameState rd) = Some (t, e)) /\
    (forall t' e', rejection (Contract.getBoard rd) = Some (t', e') -> t <= t') /\
    (forall t' e', rejection (Contract.currentTurn rd) = Some (t', e') -> t <= t') /\
    (forall t' e', rejection (Contract.gameState rd) = Some (t', e') -> t <= t').

(** The busy flag is up. *)
Definition busy (s : AppState) : Prop := loading s = true.

(** Board, turn and phase are the same before, during and after [c]. *)
Definition view_unchanged (w : world) (c : js unit) : Prop :=
  gameView (ui (exec c w)) = gameView (ui w) /\
  exists shown, trace (exec c w) = (trace w ++ shown)%list /\
                Forall (fun s => gameView s = gameView (ui w)) shown.

(** The three listeners that [init] registers on the object [c]. *)
Definition subscriptions_of (c : handle) (r : AppState) : list subscription :=
  [mkSubscription c GameStarted r; mkSubscription c MoveMade r;
   mkSubscription c GameEnded r].

(** [init] comes as far as its three [on] calls. *)
Definition reaches_subscriptions (o : Init.oracle) : Prop :=
  Init.getProvider o = Normal tt /\
  (exists chainId, Init.getNetwork o = Fulfilled chainId) /\
  Init.getSigner o = Normal tt /\
  (exists stake, Init.stakeAmount o = Fulfilled stake).

(** A game after one move of each player, X to play. *)
Definition board_in_play : Contract.reads :=
  Contract.mkReads
    (mkPromise 1 (Fulfilled [[1; 0; 0]; [0; 2; 0]; [0; 0; 0]]%Z))
    (mkPromise 2 (Fulfilled 0%Z))
    (mkPromise 3 (Fulfilled 1%Z)).

(** A wallet on the expected chain that has already authorized [a]. *)
Definition authorized (a : string) : Init.oracle :=
  Init.mkOracle (Normal tt) (Fulfilled 1234%Z) (Normal tt)
    (Fulfilled 100000000000000000%Z) (Fulfilled [a]) board_in_play.

(** ** What the component draws (lines 150-229)

    The page is kept as the texts it shows and the attributes that depend
    on the state; class names, keys and constant styles are left out. *)

(** An index argument of [String.prototype.slice], brought into
    [0 .. len]: a negative index counts from the end. *)
Definition slice_index (len i : Z) : Z :=
  if (i <? 0)%Z then Z.max (len + i) 0 else Z.min i len.

(** [s.slice(from, to)], and [s.slice(from)] when [to] is [None]. *)
Definition slice (s : string) (from : Z) (to : option Z) : string :=
  let len := Z.of_nat (String.length s) in
  let a := slice_index len from in
  let b := match to with Some e => slice_index len e | None => len end in
  String.substring (Z.to_nat a) (Z.to_nat (b - a)) s.

(** [{account.slice(0,6)}...{account.slice(-4)}] *)
Definition account_label (a : string) : string :=
  slice a 0 (Some 6%Z) ++ "..." ++ slice a (-4) None.

(** [{cell || ''}]: [0] is falsy and draws nothing. *)
Definition cell_text (cell : jsval) : string :=
  match cell with
  | JNum n => if (n =? 0)%Z then "" else NilZero.string_of_int (Z.to_int n)
  | JStr s => s
  end.

(** [cell === s] for a string literal [s]. *)
Definition is_string (cell : jsval) (s : string) : bool :=
  match cell with
  | JStr t => String.eqb t s
  | JNum _ => false
  end.

(** [cond && element] in a list of children. *)
Definition when {A} (cond : bool) (element : A) : list A :=
  if cond then [element] else [].

(** The colour of the status line. *)
Definition message_color (m : string) : string :=
  if includes "Connect" m then "#888"
  else if includes "won" m then "#4caf50"
  else if includes "lost" m then "#f44336"
  else "#fff".

Module View.

Record button : Type := mkButton
  { label : string;
    disabled : bool }.

(** A square of the board: its text, its colour and its opacity as written
    in the style. *)
Record cell : Type := mkCell
  { text : string;
    color : string;
    opacity : string }.

(** The three conditional children of the connected page. *)
Inductive panel : Type :=
| JoinGame (join : button)
| Board (turn : string) (cells : list (list cell))
| PlayAgain.

(** Without an account: the connect button (the 'Add Monad Network' button
    next to it is constant).  With one: the two status lines and the
    panels. *)
Inductive body : Type :=
| Wallet (connect : button)
| Game (connected stake : string) (panels : list panel).

Record page : Type := mkPage
  { main : body;
    status : string;
    status_color : string }.

End View.

Definition render_cell (cell : jsval) : View.cell :=
  {| View.text := cell_text cell;
     View.color := if is_string cell "X" then "#2196f3" else "#f44336";
     View.opacity := if is_zero cell then "0.7" else "1" |}.

(** The [return] of the component, for the state of render [r]. *)
Definition render (r : AppState) : View.page :=
  {| View.main :=
       match account r with
       | Some (String _ _ as a) =>
           View.Game
             ("Connected: " ++ account_label a)
             ("Stake: " ++ stakeAmount r ++ " MONAD")
             (when (String.eqb (gameState r) "waiting")
                   (View.JoinGame
                      (View.mkButton
                         (if loading r then "Joining..." else "Join Game")
                         (loading r))) ++
              when (String.eqb (gameState r) "playing")
                   (View.Board
                      ("Current Turn: " ++ currentTurn r)
                      (map (fun row => map render_cell row) (board r))) ++
              when (String.eqb (gameState r) "completed") View.PlayAgain)%list
       | _ =>
           View.Wallet
             (View.mkButton
                (if loading r then "Connecting..." else "Connect Wallet")
                (loading r))
       end;
     View.status := message r;
     View.status_color := message_color (message r) |}.

(** ** Sequences of operations *)

(** One thing that happens to the component: a call of one of its
    functions by a render [r], a run of the effect or of its cleanup, or an
    event of the contract.  The results of the external calls come with
    it. *)
Inductive action : Type :=
| DoConnectWallet (o : Wallet.connect)
| DoJoinGame (r : AppState) (o : Join.oracle)
| DoMakeMove (r : AppState) (row col : Z) (send : Z -> Z -> settled Contract.tx)
| DoCellClick (r : AppState) (i j : nat) (send : Z -> Z -> settled Contract.tx)
| DoUpdateGameState (r : AppState) (rd : Contract.reads)
| DoAddMonadNetwork (request : settled unit)
| DoEffect (r : AppState) (o : Init.oracle)
| DoRerun (r : AppState) (o : Init.oracle)
| DoCleanup (r : AppState)
| DoEmit (ev : event) (rd : Contract.reads).

Section Run.

Variable formatEther : Z -> string.

Definition perform (a : action) : js unit :=
  match a with
  | DoConnectWallet o => connectWallet o
  | DoJoinGame r o => joinGame r o
  | DoMakeMove r row col send => makeMove r row col send
  | DoCellClick r i j send => cellClick r i j send
  | DoUpdateGameState r rd => updateGameState r rd
  | DoAddMonadNetwork request => addMonadNetwork request
  | DoEffect r o => effect formatEther r o
  | DoRerun r o => rerun formatEther r o
  | DoCleanup r => cleanup r
  | DoEmit ev rd => emit ev rd
  end.

(** The actions of [l] one after the other. *)
Definition run (l : list action) (w : world) : world :=
  fold_left (fun acc a => exec (perform a) acc) l w.

End Run.

(** ** More notions used in the statements *)

(** A value a board cell is meant to hold. *)
Definition cell_ok (v : jsval) : Prop :=
  v = JNum 0 \/ v = JStr "X" \/ v = JStr "O".

(** Phase, turn and board hold only the values the page knows how to
    draw. *)
Definition well_formed (s : AppState) : Prop :=
  (gameState s = "waiting" \/ gameState s = "playing" \/
   gameState s = "completed") /\
  (currentTurn s = "X" \/ currentTurn s = "O") /\
  Forall (fun row => Forall cell_ok row) (board s).

(** [preserves f c]: the computation [c] leaves the part [f] of the world
    as it found it. *)
Definition preserves {A X} (f : world -> X) (c : js A) : Prop :=
  forall w, f (exec c w) = f w.

(** The square drawn for a cell code read from the contract. *)
Definition square_of_code (code : Z) : View.cell :=
  {| View.text := if (code =? 0)%Z then "" else if (code =? 1)%Z then "X" else "O";
     View.color := if (code =? 1)%Z then "#2196f3" else "#f44336";
     View.opacity := if (code =? 0)%Z then "0.7" else "1" |}.

(** The code read for row [i], column [j], if the board read has one. *)
Definition code_at (boardState : list (list Z)) (i j : nat) : option Z :=
  match nth_error boardState i with
  | Some row => nth_error row j
  | None => None
  end.

(** The message [init] shows for an error [e]. *)
Definition init_message (e : error) : string :=
  if includes "chain not supported" (err_message e)
  then "Please connect to Monad Testnet" else err_message e.

(** [init] fails with [e] before it creates the contract object: in
    [getProvider], in [getNetwork], or in [getSigner] and the
    constructor. *)
Definition fails_before_contract (o : Init.oracle) (e : error) : Prop :=
  Init.getProvider o = Throw e \/
  (Init.getProvider o = Normal tt /\ Init.getNetwork o = Rejected e) \/
  (Init.getProvider o = Normal tt /\
   (exists chainId, Init.getNetwork o = Fulfilled chainId) /\
   Init.getSigner o = Throw e).

(** [s] starts with [pre] / ends with [suf]. *)
Definition starts_with (pre s : string) : Prop := exists rest, s = pre ++ rest.
Definition ends_with (suf s : string) : Prop := exists rest, s = rest ++ suf.

(** * Properties *)

(** ** [includes] is substring containment *)

Lemma prefix_app (n rest : string) : String.prefix n (n ++ rest) = true.
Proof.
  induction n as [|c n IH]; simpl.
  - destruct rest; reflexivity.
  - destruct (Ascii.ascii_dec c c) as [_|ne]; [exact IH | contradiction].
Qed.

Lemma prefix_split (n h : string) :
  String.prefix n h = true -> exists rest, h = n ++ rest.
Proof.
  revert h; induction n as [|c n IH]; intros h H.
  - exists h; reflexivity.
  - destruct h as [|d h]; simpl in H; [discriminate|].
    destruct (Ascii.ascii_dec c d) as [->|]; [|discriminate].
    destruct (IH h H) as [rest ->]. exists rest; reflexivity.
Qed.

Lemma includes_unfold (n h : string) :
  includes n h =
  if String.prefix n h then true
  else match h with
       | EmptyString => false
       | String _ rest => includes n rest
       end.
Proof. destruct h; reflexivity. Qed.

Lemma includes_spec (n h : string) :
  includes n h = true <-> exists pre post, h = pre ++ n ++ post.
Proof.
  split.
  - induction h as [|c h IH]; rewrite includes_unfold;
      destruct (String.prefix n _) eqn:E.
    + intros _. destruct (prefix_split _ _ E) as [rest ->].
      exists "", rest; reflexivity.
    + intros X; discriminate X.
    + intros _. destruct (prefix_split _ _ E) as [rest E'].
      exists "", rest; exact E'.
    + intros H. destruct (IH H) as (pre & post & ->).
      exists (String c pre), post; reflexivity.
  - intros (pre & post & ->).
    induction pre as [|c pre IH]; rewrite includes_unfold.
    + change ("" ++ n ++ post) with (n ++ post).
      rewrite prefix_app; reflexivity.
    + change (String c pre ++ n ++ post) with (String c (pre ++ n ++ post)).
      destruct (String.prefix n _); [reflexivity | exact IH].
Qed.

(** ** [Promise.all] *)

Lemma Promise_all_fulfilled {A B C}
    (pa : promise A) (pb : promise B) (pc : promise C) a b c :
  outcome pa = Fulfilled a -> outcome pb = Fulfilled b ->
  outcome pc = Fulfilled c ->
  Promise_all pa pb pc = Fulfilled (a, b, c).
Proof.
  intros Ha Hb Hc. unfold Promise_all, rejection.
  rewrite Ha, Hb, Hc. reflexivity.
Qed.

Lemma Promise_all_fulfilled_inv {A B C}
    (pa : promise A) (pb : promise B) (pc : promise C) v :
  Promise_all pa pb pc = Fulfilled v ->
  outcome pa = Fulfilled (fst (fst v)) /\
  outcome pb = Fulfilled (snd (fst v)) /\
  outcome pc = Fulfilled (snd v).
Proof.
  unfold Promise_all, rejection.
  destruct (outcome pa), (outcome pb), (outcome pc); simpl;
    repeat match goal with
           | |- context [if ?b then _ else _] => destruct b; simpl
           end;
    intros H; try discriminate; inversion H; subst; auto.
Qed.

(** The reason of a rejected [Promise.all] is the reason of one of its
    rejected members, and no member rejected strictly earlier. *)
Lemma Promise_all_rejected {A B C}
    (pa : promise A) (pb : promise B) (pc : promise C) e :
  Promise_all pa pb pc = Rejected e ->
  exists t,
    (rejection pa = Some (t, e) \/ rejection pb = Some (t, e) \/
     rejection pc = Some (t, e)) /\
    (forall t' e', rejection pa = Some (t', e') -> t <= t') /\
    (forall t' e', rejection pb = Some (t', e') -> t <= t') /\
    (forall t' e', rejection pc = Some (t', e') -> t <= t').
Proof.
  unfold Promise_all, rejection.
  destruct (outcome pa), (outcome pb), (outcome pc); simpl;
    repeat match goal with
           | |- context [if (?x <? ?y)%nat then _ else _] =>
               destruct (Nat.ltb_spec x y); simpl
           end;
    intros X; try discriminate; inversion X; subst;
    eexists; (split; [eauto|]);
    repeat split; intros t' e' E; try discriminate;
    inversion E; subst; lia.
Qed.

Lemma Promise_all_some_rejected {A B C}
    (pa : promise A) (pb : promise B) (pc : promise C) :
  rejection pa <> None \/ rejection pb <> None \/ rejection pc <> None ->
  exists e, Promise_all pa pb pc = Rejected e.
Proof.
  unfold Promise_all, rejection.
  destruct (outcome pa), (outcome pb), (outcome pc); simpl;
    repeat match goal with
           | |- context [if ?b then _ else _] => destruct b; simpl
           end;
    intros H; eauto; exfalso; intuition congruence.
Qed.

(** ** A small logic of displayed states: the rules of [keeps] *)

Lemma keeps_ret {A} I (a : A) : keeps I (ret a).
Proof.
  intros w H; split; [exact H|]. exists []; split; [|constructor].
  unfold exec; simpl. now rewrite app_nil_r.
Qed.

Lemma keeps_sync {A} I (c : completion A) : keeps I (sync c).
Proof.
  intros w H; split; [exact H|]. exists []; split; [|constructor].
  unfold exec; simpl. now rewrite app_nil_r.
Qed.

Lemma keeps_member I c prop : keeps I (member c prop).
Proof.
  intros w H. unfold exec, member. destruct c; simpl;
    (split; [exact H|]; exists []; split; [now rewrite app_nil_r|constructor]).
Qed.

Lemma keeps_submit I c : keeps I (submit c).
Proof.
  intros w H; split; [exact H|]. exists []; split; [|constructor].
  unfold exec; simpl. now rewrite app_nil_r.
Qed.

Lemma keeps_await {A} I (p : settled A) : keeps I (await p).
Proof.
  intros w H; split; [exact H|]. exists [ui w]; split; [reflexivity|].
  constructor; [exact H|constructor].
Qed.

Lemma keeps_modify I f :
  (forall s, I s -> I (f s)) -> keeps I (modify_ui f).
Proof.
  intros Hf w H; split; [apply Hf, H|]. exists []; split; [|constructor].
  unfold exec; simpl. now rewrite app_nil_r.
Qed.

Lemma keeps_bind {A B} I (c : js A) (k : A -> js B) :
  keeps I c -> (forall a, keeps I (k a)) -> keeps I (bind c k).
Proof.
  intros Hc Hk w H. destruct (Hc w H) as (H1 & s1 & E1 & F1).
  unfold exec, bind in *. destruct (c w) as [[a|e] w1]; simpl in *.
  - destruct (Hk a w1 H1) as (H2 & s2 & E2 & F2). unfold exec in *.
    split; [exact H2|].
    exists (s1 ++ s2)%list. split; [|apply Forall_app; auto].
    rewrite E2, E1, app_assoc; reflexivity.
  - split; [exact H1|]. exists s1; auto.
Qed.

Lemma keeps_try_catch {A} I (body : js A) handler :
  keeps I body -> (forall e, keeps I (handler e)) ->
  keeps I (try_catch body handler).
Proof.
  intros Hc Hk w H. destruct (Hc w H) as (H1 & s1 & E1 & F1).
  unfold exec, try_catch in *. destruct (body w) as [[a|e] w1]; simpl in *.
  - split; [exact H1|]. exists s1; auto.
  - destruct (Hk e w1 H1) as (H2 & s2 & E2 & F2). unfold exec in *.
    split; [exact H2|].
    exists (s1 ++ s2)%list. split; [|apply Forall_app; auto].
    rewrite E2, E1, app_assoc; reflexivity.
Qed.

Lemma keeps_detached I (c : js unit) : keeps I c -> keeps I (detached c).
Proof.
  intros Hc w H. destruct (Hc w H) as (H1 & s1 & E1 & F1).
  unfold exec, detached in *. destruct (c w) as [res w1]; simpl in *.
  split; [exact H1|]. exists s1; auto.
Qed.

(** The setters that leave an invariant alone. *)
Ltac keeps_setter :=
  apply keeps_modify; intros s Hs; exact Hs.

(** ** The three ways [updateGameState] can run *)

Lemma updateGameState_fulfilled r rd w c boardState turn state :
  contract r = Some c ->
  all_reads rd = Fulfilled (boardState, turn, state) ->
  updateGameState r rd w =
  (setBoard (map (fun row => map cell_view row) boardState) ;;
   setCurrentTurn (turn_view turn) ;;
   setGameState (state_view state)) (suspended w).
Proof.
  intros Hc Hr.
  unfold updateGameState, updateGameState_try, try_catch, bind, member, await.
  fold (all_reads rd). rewrite Hc, Hr. reflexivity.
Qed.

Lemma updateGameState_rejected r rd w c e :
  contract r = Some c ->
  all_reads rd = Rejected e ->
  updateGameState r rd w = setMessage (err_message e) (suspended w).
Proof.
  intros Hc Hr.
  unfold updateGameState, updateGameState_try, try_catch, bind, member, await.
  fold (all_reads rd). rewrite Hc, Hr. reflexivity.
Qed.

Lemma updateGameState_null r rd w :
  contract r = None ->
  updateGameState r rd w =
  setMessage (err_message (TypeError_null "getBoard")) w.
Proof.
  intros Hc.
  unfold updateGameState, updateGameState_try, try_catch, bind, member.
  rewrite Hc. reflexivity.
Qed.

(** [updateGameState] handles every exception itself. *)
Lemma updateGameState_completes r rd w :
  fst (updateGameState r rd w) = Normal tt.
Proof.
  destruct (contract r) as [c|] eqn:Hc.
  - destruct (all_reads rd) as [[[b t] s]|e] eqn:Hr.
    + rewrite (updateGameState_fulfilled _ _ _ _ _ _ _ Hc Hr). reflexivity.
    + rewrite (updateGameState_rejected _ _ _ _ _ Hc Hr). reflexivity.
  - rewrite (updateGameState_null _ _ _ Hc). reflexivity.
Qed.

Lemma nth_error_map_map {A B} (f : A -> B) (l : list (list A)) i j row x :
  nth_error l i = Some row -> nth_error row j = Some x ->
  exists row', nth_error (map (fun r => map f r) l) i = Some row' /\
               nth_error row' j = Some (f x).
Proof.
  intros Hi Hj. exists (map f row). split.
  - rewrite nth_error_map, Hi. reflexivity.
  - rewrite nth_error_map, Hj. reflexivity.
Qed.

(** ** Claims about [updateGameState] *)

(** C1. When the three reads of a refresh succeed, the state is the
    projection of what was read: the board is the read board with every
    cell code sent through [cell_view], the turn is [turn_view] of the turn
    code and the phase is [state_view] of the phase code; and these send
    phase codes 0, 1, 2 to 'waiting', 'playing', 'completed', turn codes
    0, 1 to 'X', 'O', and cell codes 0, 1, 2 to the empty cell [0], 'X',
    'O', each code to exactly that one value. *)
Theorem updateGameState_projection
    (r : AppState) (rd : Contract.reads) (w : world) (c : handle)
    (boardState : list (list Z)) (turn state : Z)
    (Hc : contract r = Some c)
    (Hboard : outcome (Contract.getBoard rd) = Fulfilled boardState)
    (Hturn : outcome (Contract.currentTurn rd) = Fulfilled turn)
    (Hstate : outcome (Contract.gameState rd) = Fulfilled state) :
  let s' := ui (exec (updateGameState r rd) w) in
  (board s' = map (fun row => map cell_view row) boardState /\
   currentTurn s' = turn_view turn /\
   gameState s' = state_view state) /\
  (state = 0%Z -> gameState s' = "waiting") /\
  (state = 1%Z -> gameState s' = "playing") /\
  (state = 2%Z -> gameState s' = "completed") /\
  (turn = 0%Z -> currentTurn s' = "X") /\
  (turn = 1%Z -> currentTurn s' = "O") /\
  (forall i j row code,
      nth_error boardState i = Some row -> nth_error row j = Some code ->
      exists row', nth_error (board s') i = Some row' /\
        nth_error row' j = Some (cell_view code) /\
        (code = 0%Z -> cell_view code = JNum 0) /\
        (code = 1%Z -> cell_view code = JStr "X") /\
        (code = 2%Z -> cell_view code = JStr "O")).
Proof.
  intros s'.
  assert (Hr : all_reads rd = Fulfilled (boardState, turn, state))
    by (apply Promise_all_fulfilled; assumption).
  assert (E : s' = with_gameState (state_view state)
                     (with_currentTurn (turn_view turn)
                        (with_board (map (fun row => map cell_view row) boardState)
                           (ui w)))).
  { subst s'. unfold exec.
    rewrite (updateGameState_fulfilled _ _ _ _ _ _ _ Hc Hr). reflexivity. }
  rewrite E; simpl. repeat split; try (intros ->; reflexivity).
  intros i j row code Hi Hj.
  destruct (nth_error_map_map cell_view _ _ _ _ _ Hi Hj) as (row' & H1 & H2).
  exists row'. repeat split; auto; intros ->; reflexivity.
Qed.

(** C1, at a concrete refresh: a board with the three codes, turn code 1,
    phase code 2. *)
Lemma updateGameState_projection_witness :
  let r := with_contract (Some 0) initialState in
  let rd := Contract.mkReads
              (mkPromise 3 (Fulfilled [[0; 1; 2]; [0; 0; 0]; [2; 1; 0]]%Z))
              (mkPromise 1 (Fulfilled 1%Z))
              (mkPromise 2 (Fulfilled 2%Z)) in
  let s' := ui (exec (updateGameState r rd) initialWorld) in
  board s' = [[JNum 0; JStr "X"; JStr "O"];
              [JNum 0; JNum 0; JNum 0];
              [JStr "O"; JStr "X"; JNum 0]] /\
  currentTurn s' = "O" /\ gameState s' = "completed".
Proof.
  intros r rd s'.
  destruct (updateGameState_projection r rd initialWorld 0
              [[0; 1; 2]; [0; 0; 0]; [2; 1; 0]]%Z 1%Z 2%Z
              eq_refl eq_refl eq_refl eq_refl) as ((Hb & Ht & Hs) & _).
  split; [exact Hb | split; [exact Ht | exact Hs]].
Defined.

(** C2. When one of the three reads of a refresh fails, board, turn and
    phase are what they were, in the final state and in every state shown
    meanwhile, and nothing but the message changes: the message is the
    message of the read error that came first (with no contract object in
    the render, that of the [TypeError] raised by the first read). *)
Theorem updateGameState_failure
    (r : AppState) (rd : Contract.reads) (w : world)
    (Hfail : read_fails rd) :
  let w' := exec (updateGameState r rd) w in
  gameView (ui w') = gameView (ui w) /\
  (exists shown, trace w' = (trace w ++ shown)%list /\
                 Forall (fun s => gameView s = gameView (ui w)) shown) /\
  match contract r with
  | Some _ =>
      exists e, first_read_error rd e /\
                ui w' = with_message (err_message e) (ui w)
  | None =>
      ui w' = with_message (err_message (TypeError_null "getBoard")) (ui w)
  end.
Proof.
  intros w'. subst w'. unfold exec.
  destruct (contract r) as [c|] eqn:Hc.
  - destruct (Promise_all_some_rejected _ _ _ Hfail) as [e He].
    rewrite (updateGameState_rejected _ _ _ _ _ Hc He). simpl.
    split; [reflexivity|]. split.
    + exists [ui w]. split; [reflexivity|]. constructor; [reflexivity|constructor].
    + exists e. split; [|reflexivity].
      exact (Promise_all_rejected _ _ _ _ He).
  - rewrite (updateGameState_null _ _ _ Hc). simpl.
    split; [reflexivity|]. split; [|reflexivity].
    exists []. split; [now rewrite app_nil_r | constructor].
Qed.

(** C2, at a refresh whose turn read is rejected first and whose phase read
    is rejected later, in a game in progress. *)
Lemma updateGameState_failure_witness :
  let r := with_contract (Some 0) (with_gameState "playing" initialState) in
  let w := mkWorld r 1 [] [] [] in
  let rd := Contract.mkReads
              (mkPromise 5 (Fulfilled [[1; 0; 0]; [0; 0; 0]; [0; 0; 0]]%Z))
              (mkPromise 2 (Rejected (mkError "timeout")))
              (mkPromise 4 (Rejected (mkError "call revert exception"))) in
  read_fails rd /\
  ui (exec (updateGameState r rd) w) = with_message "timeout" r.
Proof.
  intros r w rd.
  assert (Hfail : read_fails rd) by (right; left; discriminate).
  split; [exact Hfail|].
  destruct (updateGameState_failure r rd w Hfail)
    as (_ & _ & e & (t & [E|[E|E]] & _ & Hturn & _) & He);
    rewrite He; clear He.
  - discriminate E.
  - inversion E; reflexivity.
  - inversion E; subst t. specialize (Hturn 2 _ eq_refl). lia.
Defined.

(** C10. The projection accepts every integer code.  When the three reads
    succeed, whatever the codes, the refresh completes normally and leaves
    the message alone; a phase code other than 0 and 1 gives 'completed', a
    turn code other than 0 gives 'O', and a cell code other than 0 and 1
    gives 'O'. *)
Theorem updateGameState_total
    (r : AppState) (rd : Contract.reads) (w : world) (c : handle)
    (boardState : list (list Z)) (turn state : Z)
    (Hc : contract r = Some c)
    (Hboard : outcome (Contract.getBoard rd) = Fulfilled boardState)
    (Hturn : outcome (Contract.currentTurn rd) = Fulfilled turn)
    (Hstate : outcome (Contract.gameState rd) = Fulfilled state) :
  let s' := ui (exec (updateGameState r rd) w) in
  fst (updateGameState r rd w) = Normal tt /\
  message s' = message (ui w) /\
  (state <> 0%Z -> state <> 1%Z -> gameState s' = "completed") /\
  (turn <> 0%Z -> currentTurn s' = "O") /\
  (forall i j row code,
      nth_error boardState i = Some row -> nth_error row j = Some code ->
      code <> 0%Z -> code <> 1%Z ->
      exists row', nth_error (board s') i = Some row' /\
                   nth_error row' j = Some (JStr "O")).
Proof.
  intros s'.
  assert (Hr : all_reads rd = Fulfilled (boardState, turn, state))
    by (apply Promise_all_fulfilled; assumption).
  split; [apply updateGameState_completes|].
  subst s'. unfold exec.
  rewrite (updateGameState_fulfilled _ _ _ _ _ _ _ Hc Hr). simpl.
  split; [reflexivity|]. split; [|split].
  - intros H0 H1. unfold state_view.
    destruct (Z.eqb_spec state 0); [contradiction|].
    destruct (Z.eqb_spec state 1); [contradiction|reflexivity].
  - intros H0. unfold turn_view.
    destruct (Z.eqb_spec turn 0); [contradiction|reflexivity].
  - intros i j row code Hi Hj H0 H1.
    destruct (nth_error_map_map cell_view _ _ _ _ _ Hi Hj) as (row' & E1 & E2).
    exists row'. split; [exact E1|]. rewrite E2. unfold cell_view.
    destruct (Z.eqb_spec code 0); [contradiction|].
    destruct (Z.eqb_spec code 1); [contradiction|reflexivity].
Qed.

(** C10, with phase code 3, turn code 7 and a cell code 5 (and a negative
    one). *)
Lemma updateGameState_total_witness :
  let r := with_contract (Some 0) initialState in
  let rd := Contract.mkReads
              (mkPromise 1 (Fulfilled [[5; (-1)]]%Z))
              (mkPromise 1 (Fulfilled 7%Z))
              (mkPromise 1 (Fulfilled 3%Z)) in
  let s' := ui (exec (updateGameState r rd) initialWorld) in
  fst (updateGameState r rd initialWorld) = Normal tt /\
  message s' = "Connect your wallet to play" /\
  gameState s' = "completed" /\ currentTurn s' = "O" /\
  exists row', nth_error (board s') 0 = Some row' /\
               nth_error row' 0 = Some (JStr "O").
Proof.
  intros r rd s'.
  destruct (updateGameState_total r rd initialWorld 0 [[5; (-1)]]%Z 7%Z 3%Z
              eq_refl eq_refl eq_refl eq_refl) as (Hn & Hm & Hs & Ht & Hb).
  split; [exact Hn|]. split; [exact Hm|].
  split; [apply Hs; discriminate|]. split; [apply Ht; discriminate|].
  apply (Hb 0 0 [5; (-1)]%Z 5%Z eq_refl eq_refl); discriminate.
Defined.

(** ** Invariants of the operations *)

Lemma keeps_try_finally {A} I (body : js A) fin :
  keeps I body -> keeps I fin -> keeps I (try_finally body fin).
Proof.
  intros Hc Hk w H. destruct (Hc w H) as (H1 & s1 & E1 & F1).
  unfold exec, try_finally in *. destruct (body w) as [res w1]; simpl in *.
  destruct (Hk w1 H1) as (H2 & s2 & E2 & F2). unfold exec in *.
  assert (X : I (ui (snd (fin w1))) /\
              exists shown, trace (snd (fin w1)) = (trace w ++ shown)%list /\
                            Forall I shown).
  { split; [exact H2|]. exists (s1 ++ s2)%list.
    split; [|apply Forall_app; auto]. rewrite E2, E1, app_assoc; reflexivity. }
  destruct (fin w1) as [[u|e] w2]; exact X.
Qed.

(** Solves [keeps I c] for a computation [c] built from the primitives,
    when every setter in it names a field the invariant does not read. *)
Ltac keeps_all :=
  repeat first
    [ progress intros
    | apply keeps_bind | apply keeps_try_catch | apply keeps_try_finally
    | apply keeps_detached | apply keeps_await | apply keeps_sync
    | apply keeps_member | apply keeps_submit | apply keeps_ret
    | keeps_setter ].

(** *** The game view is not touched by the user operations *)

Section GameView.

Variable v : list (list jsval) * string * string.

Lemma joinGame_keeps_view r o :
  keeps (fun s => gameView s = v) (joinGame r o).
Proof. unfold joinGame, try_catch_finally, joinGame_try. keeps_all. Qed.

Lemma makeMove_keeps_view r row col send :
  keeps (fun s => gameView s = v) (makeMove r row col send).
Proof. unfold makeMove, try_catch_finally, makeMove_try. keeps_all. Qed.

Lemma connectWallet_keeps_view o :
  keeps (fun s => gameView s = v) (connectWallet o).
Proof. unfold connectWallet, try_catch_finally, connectWallet_try. keeps_all. Qed.

Lemma addMonadNetwork_keeps_view req :
  keeps (fun s => gameView s = v) (addMonadNetwork req).
Proof. unfold addMonadNetwork, addMonadNetwork_try. keeps_all. Qed.

Lemma cellClick_keeps_view r i j send :
  keeps (fun s => gameView s = v) (cellClick r i j send).
Proof.
  unfold cellClick. destruct (cell_rendered r i j) as [cell|]; [|keeps_all].
  destruct (negb (loading r) && is_zero cell); [|keeps_all].
  apply keeps_detached, makeMove_keeps_view.
Qed.

End GameView.

(** *** The busy flag during an operation *)

(** The shape shared by the guarded operations: [setLoading(true)] opens
    the [try] block and [setLoading(false)] is the [finally] block. *)
Lemma guarded_busy (rest : js unit) (handler : error -> js unit) (w : world) :
  keeps busy rest ->
  (forall e, keeps busy (handler e)) ->
  let c := try_catch_finally (setLoading true ;; rest) handler (setLoading false) in
  loading (ui (exec c w)) = false /\
  exists shown, trace (exec c w) = (trace w ++ shown)%list /\ Forall busy shown.
Proof.
  intros Hrest Hh c.
  assert (K : keeps busy (try_catch rest handler))
    by (apply keeps_try_catch; assumption).
  destruct (K (exec (setLoading true) w) eq_refl) as (_ & shown & E & F).
  subst c. unfold exec, try_catch_finally, try_finally, try_catch, bind in *.
  simpl in *.
  destruct (rest _) as [[u|e] w1]; simpl in *.
  - split; [reflexivity|]. exists shown; auto.
  - destruct (handler e w1) as [res w2]; simpl in *.
    split; [reflexivity|]. exists shown; auto.
Qed.

(** Neither operation lets an exception escape. *)
Lemma joinGame_completes r o w : fst (joinGame r o w) = Normal tt.
Proof.
  unfold joinGame, try_catch_finally, try_finally, try_catch.
  destruct (joinGame_try r o w) as [[[]|e] w1]; reflexivity.
Qed.

Lemma makeMove_completes r row col send w :
  fst (makeMove r row col send w) = Normal tt.
Proof.
  unfold makeMove, try_catch_finally, try_finally, try_catch.
  destruct (makeMove_try r row col send w) as [[[]|e] w1]; reflexivity.
Qed.

Lemma app_two {A} (l : list A) a b :
  ((l ++ [a]) ++ [b])%list = (l ++ [a; b])%list.
Proof. induction l as [|x l IH]; simpl; [reflexivity | now rewrite IH]. Qed.

Lemma app_three {A} (l : list A) a b c :
  (((l ++ [a]) ++ [b]) ++ [c])%list = (l ++ [a; b; c])%list.
Proof. induction l as [|x l IH]; simpl; [reflexivity | now rewrite IH]. Qed.

(** C3. [joinGame] and [makeMove] always return normally and leave
    [loading] false.  The states shown while they are suspended are
    given exactly: each is the state of the call with [loading] true and
    the progress message, and there is one per call awaited - for
    [joinGame] the read of the stake, the submission and the mining, for
    [makeMove] the submission and the mining - up to and including the
    first call that fails.  So with a contract object in the render at
    least one state is shown, and in every state shown, whichever call
    succeeds or fails, [loading] is true. *)
Theorem loading_during_joinGame_makeMove (r : AppState) (w : world) :
  (forall o,
      let busy_state :=
        with_message "Waiting for transaction..." (with_loading true (ui w)) in
      fst (joinGame r o w) = Normal tt /\
      loading (ui (exec (joinGame r o) w)) = false /\
      loading busy_state = true /\
      trace (exec (joinGame r o) w) =
      (trace w ++
       repeat busy_state
         match contract r with
         | None => 0
         | Some _ =>
             match Join.stakeAmount o with
             | Rejected _ => 1
             | Fulfilled value =>
                 match Join.joinGame o value with
                 | Rejected _ => 2
                 | Fulfilled _ => 3
                 end
             end
         end)%list) /\
  (forall row col send,
      let busy_state :=
        with_message "Processing your move..." (with_loading true (ui w)) in
      fst (makeMove r row col send w) = Normal tt /\
      loading (ui (exec (makeMove r row col send) w)) = false /\
      loading busy_state = true /\
      trace (exec (makeMove r row col send) w) =
      (trace w ++
       repeat busy_state
         match contract r with
         | None => 0
         | Some _ =>
             match send row col with
             | Rejected _ => 1
             | Fulfilled _ => 2
             end
         end)%list).
Proof.
  split.
  - intros o busy_state. split; [apply joinGame_completes|].
    split.
    { apply (guarded_busy
               (setMessage "Waiting for transaction..." ;;
                c <- member (contract r) "joinGame" ;;
                value <- await (Join.stakeAmount o) ;;
                submit (CallJoinGame c value) ;;
                tx <- await (Join.joinGame o value) ;;
                await (Contract.wait tx))); keeps_all. }
    split; [reflexivity|]. subst busy_state.
    unfold exec, joinGame, joinGame_try, try_catch_finally, try_finally,
      try_catch, bind, member, await, suspended.
    destruct (contract r) as [c|]; simpl; [|now rewrite app_nil_r].
    destruct (Join.stakeAmount o) as [value|e]; simpl; [|reflexivity].
    destruct (Join.joinGame o value) as [tx|e]; simpl; [|apply app_two].
    destruct (Contract.wait tx); simpl; apply app_three.
  - intros row col send busy_state. split; [apply makeMove_completes|].
    split.
    { apply (guarded_busy
               (setMessage "Processing your move..." ;;
                c <- member (contract r) "makeMove" ;;
                submit (CallMakeMove c row col) ;;
                tx <- await (send row col) ;;
                await (Contract.wait tx))); keeps_all. }
    split; [reflexivity|]. subst busy_state.
    unfold exec, makeMove, makeMove_try, try_catch_finally, try_finally,
      try_catch, bind, member, await, suspended.
    destruct (contract r) as [c|]; simpl; [|now rewrite app_nil_r].
    destruct (send row col) as [tx|e]; simpl; [|reflexivity].
    destruct (Contract.wait tx); simpl; apply app_two.
Qed.

(** The states shown by a join that goes through: three suspensions (stake
    read, submission, mining), all with [loading] set. *)
Example joinGame_shown :
  let r := with_contract (Some 0) initialState in
  let o := Join.mkOracle (Fulfilled 100%Z)
             (fun _ => Fulfilled (Contract.mkTx (Fulfilled tt))) in
  let busy_state :=
    with_message "Waiting for transaction..." (with_loading true r) in
  exec (joinGame r o) (mkWorld r 1 [] [] []) =
  mkWorld (with_loading false busy_state) 1 [] [CallJoinGame 0 100]
          [busy_state; busy_state; busy_state].
Proof. reflexivity. Qed.

(** C5. [joinGame] and [makeMove] never write board, turn or phase: for
    every outcome of their calls the three fields are, in the final state
    and in every state shown meanwhile, what they were at the start.  The
    same holds for [connectWallet], [addMonadNetwork] and a click on a
    cell, so the three fields change only in [updateGameState], which
    replaces them together after its reads. *)
Theorem game_view_not_written (r : AppState) (w : world) :
  (forall o, view_unchanged w (joinGame r o)) /\
  (forall row col send, view_unchanged w (makeMove r row col send)) /\
  (forall i j send, view_unchanged w (cellClick r i j send)) /\
  (forall o, view_unchanged w (connectWallet o)) /\
  (forall req, view_unchanged w (addMonadNetwork req)).
Proof.
  unfold view_unchanged.
  split; [|split; [|split; [|split]]].
  - intros o. apply (joinGame_keeps_view (gameView (ui w)) r o w eq_refl).
  - intros row col send.
    apply (makeMove_keeps_view (gameView (ui w)) r row col send w eq_refl).
  - intros i j send.
    apply (cellClick_keeps_view (gameView (ui w)) r i j send w eq_refl).
  - intros o. apply (connectWallet_keeps_view (gameView (ui w)) o w eq_refl).
  - intros req.
    apply (addMonadNetwork_keeps_view (gameView (ui w)) req w eq_refl).
Qed.

(** ** The click handler and [makeMove] *)

Lemma is_zero_inv cell : is_zero cell = true -> cell = JNum 0.
Proof.
  destruct cell as [n|s]; simpl; [|discriminate].
  intros H. apply Z.eqb_eq in H. now subst.
Qed.

Lemma cell_rendered_inv r i j cell :
  cell_rendered r i j = Some cell ->
  truthy (account r) = true /\ gameState r = "playing" /\
  exists row, nth_error (board r) i = Some row /\ nth_error row j = Some cell.
Proof.
  unfold cell_rendered.
  destruct (truthy (account r)); simpl; [|discriminate].
  destruct (String.eqb_spec (gameState r) "playing") as [E|]; [|discriminate].
  destruct (nth_error (board r) i) as [row|]; [|discriminate].
  intros H. repeat split; auto. exists row; auto.
Qed.

(** With a contract object in the render, [makeMove] requests the
    transaction whatever the arguments and the state. *)
Lemma makeMove_submits r row col send w c :
  contract r = Some c ->
  calls (exec (makeMove r row col send) w) =
  (calls w ++ [CallMakeMove c row col])%list.
Proof.
  intros Hc.
  unfold exec, makeMove, makeMove_try, try_catch_finally, try_finally,
    try_catch, bind, member.
  rewrite Hc. simpl.
  destruct (send row col) as [tx|e]; simpl; [|reflexivity].
  destruct (Contract.wait tx); reflexivity.
Qed.

(** C7. A click on a cell does something only if the cell is drawn (an
    account is connected and the phase is 'playing'), holds [0] and
    [loading] is false; it then calls [makeMove] with the position of the
    cell.  [makeMove] checks nothing: with a contract object in the render,
    for every row and column, every board, turn and phase, it requests the
    move transaction, and when the request is accepted it waits for the
    transaction to be mined. *)
Theorem makeMove_only_from_enabled_empty_cell
    (r : AppState) (w : world) (send : Z -> Z -> settled Contract.tx) :
  (forall i j,
      exec (cellClick r i j send) w <> w ->
      loading r = false /\
      truthy (account r) = true /\ gameState r = "playing" /\
      (exists row, nth_error (board r) i = Some row /\
                   nth_error row j = Some (JNum 0)) /\
      cellClick r i j send =
      detached (makeMove r (Z.of_nat i) (Z.of_nat j) send)) /\
  (forall c row col,
      contract r = Some c ->
      calls (exec (makeMove r row col send) w) =
      (calls w ++ [CallMakeMove c row col])%list /\
      forall tx, send row col = Fulfilled tx ->
        trace (exec (makeMove r row col send) w) =
        (trace w ++
         [with_message "Processing your move..." (with_loading true (ui w));
          with_message "Processing your move..." (with_loading true (ui w))])%list).
Proof.
  split.
  - intros i j Hdiff. unfold cellClick in *.
    destruct (cell_rendered r i j) as [cell|] eqn:Hcell;
      [|exfalso; apply Hdiff; reflexivity].
    destruct (loading r) eqn:Hl; simpl in *;
      [exfalso; apply Hdiff; reflexivity|].
    destruct (is_zero cell) eqn:Hz; [|exfalso; apply Hdiff; reflexivity].
    apply is_zero_inv in Hz; subst cell.
    destruct (cell_rendered_inv _ _ _ _ Hcell) as (Ha & Hg & Hrow).
    repeat split; auto.
  - intros c row col Hc. split; [apply makeMove_submits, Hc|].
    intros tx Htx.
    unfold exec, makeMove, makeMove_try, try_catch_finally, try_finally,
      try_catch, bind, member.
    rewrite Hc. simpl. rewrite Htx. simpl.
    destruct (Contract.wait tx); simpl; rewrite <- app_assoc; reflexivity.
Qed.

(** C7, on a board in play: a click on the empty cell (1,1) requests the
    move, and [makeMove] called for the occupied cell (0,0), or for a
    position outside the board, requests it just the same. *)
Lemma makeMove_only_from_enabled_empty_cell_witness :
  let r := with_board [[JStr "X"; JNum 0; JNum 0];
                       [JNum 0; JNum 0; JNum 0];
                       [JNum 0; JNum 0; JStr "O"]]
             (with_gameState "playing"
                (with_account (Some "0xA11CE")
                   (with_contract (Some 0) initialState))) in
  let w := mkWorld r 1 [] [] [] in
  let send := fun _ _ : Z => Fulfilled (Contract.mkTx (Fulfilled tt)) in
  exec (cellClick r 1 1 send) w <> w /\
  nth_error (board r) 1 = Some [JNum 0; JNum 0; JNum 0] /\
  calls (exec (cellClick r 1 1 send) w) = [CallMakeMove 0 1 1] /\
  exec (cellClick r 0 0 send) w = w /\
  calls (exec (makeMove r 0 0 send) w) = [CallMakeMove 0 0 0] /\
  calls (exec (makeMove r 7 (-2) send) w) = [CallMakeMove 0 7 (-2)].
Proof.
  intros r w send.
  assert (Hdiff : exec (cellClick r 1 1 send) w <> w) by discriminate.
  destruct (makeMove_only_from_enabled_empty_cell r w send) as [Hclick Hmove].
  destruct (Hclick 1 1 Hdiff) as (_ & _ & _ & _ & Heq).
  split; [exact Hdiff|]. split; [reflexivity|].
  split; [rewrite Heq; reflexivity|]. split; [reflexivity|].
  split.
  - exact (proj1 (Hmove 0 0%Z 0%Z eq_refl)).
  - exact (proj1 (Hmove 0 7%Z (-2)%Z eq_refl)).
Defined.

(** ** Error messages *)

(** What a [catch] block that only sets the message leaves behind. *)
Lemma caught_message (body : js unit) (f : error -> string) w e :
  fst (body w) = Throw e ->
  ui (exec (try_catch body (fun err => setMessage (f err))) w) =
  with_message (f e) (ui (exec body w)).
Proof.
  unfold exec, try_catch. destruct (body w) as [[u|e'] w1]; simpl;
    intros H; [discriminate|]. inversion H; reflexivity.
Qed.

Lemma caught_message_finally (body : js unit) (f : error -> string) w e :
  fst (body w) = Throw e ->
  ui (exec (try_catch_finally body (fun err => setMessage (f err))
                              (setLoading false)) w) =
  with_loading false (with_message (f e) (ui (exec body w))).
Proof.
  unfold exec, try_catch_finally, try_finally, try_catch.
  destruct (body w) as [[u|e'] w1]; simpl;
    intros H; [discriminate|]. inversion H; reflexivity.
Qed.

(** The text that replaces a rejected join is not the text it replaces. *)
Lemma cancelled_is_not_raw (m : string) :
  includes "user rejected" m = true -> "Transaction cancelled" <> m.
Proof. intros H E. subst m. vm_compute in H. discriminate H. Qed.

(** The [try] block of [connectWallet] up to its failure. *)
Lemma connectWallet_try_fails o w e :
  Wallet.getProvider o = Throw e \/
  (Wallet.getProvider o = Normal tt /\ Wallet.eth_requestAccounts o = Rejected e) ->
  fst (connectWallet_try o w) = Throw e /\
  account (ui (exec (connectWallet_try o) w)) = account (ui w).
Proof.
  unfold exec, connectWallet_try, bind, sync, await.
  intros [H|[H1 H2]]; simpl.
  - rewrite H. split; reflexivity.
  - rewrite H1, H2. split; reflexivity.
Qed.

(** C8. When [connectWallet] fails, because the provider cannot be
    obtained or because the account request is rejected, the message is
    the message of the error, unmodified, and [account] is what it was;
    nothing else changes but [loading], which ends false. *)
Theorem connectWallet_failure
    (o : Wallet.connect) (w : world) (e : error)
    (Hfail : Wallet.getProvider o = Throw e \/
             (Wallet.getProvider o = Normal tt /\
              Wallet.eth_requestAccounts o = Rejected e)) :
  let s' := ui (exec (connectWallet o) w) in
  message s' = err_message e /\
  account s' = account (ui w) /\
  s' = with_loading false (with_message (err_message e) (ui w)).
Proof.
  intros s'. subst s'.
  destruct (connectWallet_try_fails o w e Hfail) as [Ht Ha].
  unfold connectWallet. rewrite (caught_message_finally _ err_message _ _ Ht).
  split; [reflexivity|]. split; [exact Ha|].
  unfold exec, connectWallet_try, bind, sync, await in *.
  destruct Hfail as [H|[H1 H2]]; simpl.
  - rewrite H. reflexivity.
  - rewrite H1, H2. reflexivity.
Qed.

(** C8, when the user dismisses the wallet prompt. *)
Lemma connectWallet_failure_witness :
  let o := Wallet.mkConnect (Normal tt)
             (Rejected (mkError "User rejected the request.")) in
  let s' := ui (exec (connectWallet o) initialWorld) in
  message s' = "User rejected the request." /\ account s' = None.
Proof.
  intros o s'.
  destruct (connectWallet_failure o initialWorld
              (mkError "User rejected the request.")
              (or_intror (conj eq_refl eq_refl))) as (Hm & Ha & _).
  split; [exact Hm | exact Ha].
Defined.

(** C4 as stated fails: the catch block of [joinGame] looks for the
    lower-case text 'user rejected' in the message of the error and knows
    of no other sign of a rejection.  The user dismisses the wallet prompt
    of the join transaction and the wallet rejects the request with the
    message 'User rejected the request.': the message shown is that raw
    text, not 'Transaction cancelled'. *)
Lemma joinGame_rejection_shown_raw :
  let r := with_contract (Some 0)
             (with_account (Some "0xA11CE") initialState) in
  let w := mkWorld r 1 [] [] [] in
  let e := mkError "User rejected the request." in
  let o := Join.mkOracle (Fulfilled 100000000000000000%Z)
             (fun _ => Rejected e) in
  fst (joinGame_try r o w) = Throw e /\
  includes "user rejected" (err_message e) = false /\
  message (ui (exec (joinGame r o) w)) = "User rejected the request." /\
  message (ui (exec (joinGame r o) w)) <> "Transaction cancelled".
Proof.
  intros r w e o. vm_compute.
  split; [reflexivity|]. split; [reflexivity|]. split; [reflexivity|].
  discriminate.
Qed.

(** C4, amended.  The message shown for an error [e] raised in the [try]
    block of an operation is decided by the text of its message alone.
    In [joinGame] it is 'Transaction cancelled' when the
    message of [e] contains 'user rejected', which then differs from the
    raw text, and the raw message otherwise.  In [init] it is 'Please
    connect to Monad Testnet' when the message of [e] contains 'chain not
    supported', and the raw message otherwise.  In [connectWallet],
    [updateGameState], [makeMove] and [addMonadNetwork] it is always the
    raw message. *)
Theorem error_message_shown (r : AppState) (w : world) (e : error) :
  (forall o,
      fst (joinGame_try r o w) = Throw e ->
      message (ui (exec (joinGame r o) w)) =
      (if includes "user rejected" (err_message e)
       then "Transaction cancelled" else err_message e) /\
      (includes "user rejected" (err_message e) = true ->
       message (ui (exec (joinGame r o) w)) <> err_message e)) /\
  (forall formatEther o,
      fst (init_try formatEther r o w) = Throw e ->
      message (ui (exec (init formatEther r o) w)) =
      (if includes "chain not supported" (err_message e)
       then "Please connect to Monad Testnet" else err_message e)) /\
  (forall o,
      fst (connectWallet_try o w) = Throw e ->
      message (ui (exec (connectWallet o) w)) = err_message e) /\
  (forall rd,
      fst (updateGameState_try r rd w) = Throw e ->
      message (ui (exec (updateGameState r rd) w)) = err_message e) /\
  (forall row col send,
      fst (makeMove_try r row col send w) = Throw e ->
      message (ui (exec (makeMove r row col send) w)) = err_message e) /\
  (forall request,
      fst (addMonadNetwork_try request w) = Throw e ->
      message (ui (exec (addMonadNetwork request) w)) = err_message e).
Proof.
  split; [|split; [|split; [|split; [|split]]]].
  - intros o H.
    assert (E : message (ui (exec (joinGame r o) w)) =
                (if includes "user rejected" (err_message e)
                 then "Transaction cancelled" else err_message e)).
    { unfold joinGame.
      rewrite (caught_message_finally _
                 (fun err => if includes "user rejected" (err_message err)
                             then "Transaction cancelled"
                             else err_message err) _ _ H).
      reflexivity. }
    split; [exact E|]. intros Hin. rewrite E, Hin.
    apply cancelled_is_not_raw, Hin.
  - intros formatEther o H. unfold init.
    rewrite (caught_message _
               (fun err => if includes "chain not supported" (err_message err)
                           then "Please connect to Monad Testnet"
                           else err_message err) _ _ H).
    reflexivity.
  - intros o H. unfold connectWallet.
    rewrite (caught_message_finally _ err_message _ _ H). reflexivity.
  - intros rd H. unfold updateGameState.
    rewrite (caught_message _ err_message _ _ H). reflexivity.
  - intros row col send H. unfold makeMove.
    rewrite (caught_message_finally _ err_message _ _ H). reflexivity.
  - intros request H. unfold addMonadNetwork.
    rewrite (caught_message _ err_message _ _ H). reflexivity.
Qed.

(** C4, on one failure of each operation. *)
Lemma error_message_shown_witness :
  let r := with_contract (Some 0) initialState in
  let w := mkWorld r 1 [] [] [] in
  let rejected := mkError "user rejected transaction (action=sendTransaction)" in
  let funds := mkError "insufficient funds for gas" in
  let chain := mkError "underlying network changed: chain not supported" in
  let formatEther := fun _ : Z => "0.1" in
  message (ui (exec (joinGame r (Join.mkOracle (Fulfilled 5%Z)
                                   (fun _ => Rejected rejected))) w))
  = "Transaction cancelled" /\
  message (ui (exec (joinGame r (Join.mkOracle (Fulfilled 5%Z)
                                   (fun _ => Rejected funds))) w))
  = "insufficient funds for gas" /\
  message (ui (exec (init formatEther r
                       (Init.mkOracle (Normal tt) (Rejected chain) (Normal tt)
                          (Fulfilled 5%Z) (Fulfilled [])
                          (Contract.mkReads (mkPromise 0 (Fulfilled []))
                             (mkPromise 0 (Fulfilled 0%Z))
                             (mkPromise 0 (Fulfilled 0%Z))))) w))
  = "Please connect to Monad Testnet" /\
  message (ui (exec (init formatEther r
                       (Init.mkOracle (Normal tt) (Fulfilled 1234%Z) (Normal tt)
                          (Rejected funds) (Fulfilled [])
                          (Contract.mkReads (mkPromise 0 (Fulfilled []))
                             (mkPromise 0 (Fulfilled 0%Z))
                             (mkPromise 0 (Fulfilled 0%Z))))) w))
  = "insufficient funds for gas" /\
  message (ui (exec (connectWallet
                       (Wallet.mkConnect (Normal tt) (Rejected rejected))) w))
  = "user rejected transaction (action=sendTransaction)" /\
  message (ui (exec (updateGameState r
                       (Contract.mkReads (mkPromise 0 (Rejected chain))
                          (mkPromise 0 (Fulfilled 0%Z))
                          (mkPromise 0 (Fulfilled 0%Z)))) w))
  = "underlying network changed: chain not supported" /\
  message (ui (exec (makeMove r 0 0 (fun _ _ => Rejected rejected)) w))
  = "user rejected transaction (action=sendTransaction)" /\
  message (ui (exec (addMonadNetwork (Rejected rejected)) w))
  = "user rejected transaction (action=sendTransaction)".
Proof.
  intros r w rejected funds chain formatEther.
  destruct (error_message_shown r w rejected) as (Hj & _ & Hc & _ & Hm & Ha).
  destruct (error_message_shown r w funds) as (Hj' & Hi' & _).
  destruct (error_message_shown r w chain) as (_ & Hi & _ & Hu & _).
  split; [|split; [|split; [|split; [|split; [|split; [|split]]]]]].
  - match goal with
    | |- message (ui (exec (joinGame _ ?o) _)) = _ =>
        exact (proj1 (Hj o eq_refl))
    end.
  - match goal with
    | |- message (ui (exec (joinGame _ ?o) _)) = _ =>
        exact (proj1 (Hj' o eq_refl))
    end.
  - match goal with
    | |- message (ui (exec (init _ _ ?o) _)) = _ =>
        exact (Hi formatEther o eq_refl)
    end.
  - match goal with
    | |- message (ui (exec (init _ _ ?o) _)) = _ =>
        exact (Hi' formatEther o eq_refl)
    end.
  - match goal with
    | |- message (ui (exec (connectWallet ?o) _)) = _ =>
        exact (Hc o eq_refl)
    end.
  - match goal with
    | |- message (ui (exec (updateGameState _ ?rd) _)) = _ =>
        exact (Hu rd eq_refl)
    end.
  - match goal with
    | |- message (ui (exec (makeMove _ ?row ?col ?send) _)) = _ =>
        exact (Hm row col send eq_refl)
    end.
  - match goal with
    | |- message (ui (exec (addMonadNetwork ?req) _)) = _ =>
        exact (Ha req eq_refl)
    end.
Defined.

(** ** The [GameEnded] listener *)

(** The listener sets the message and then starts the refresh. *)
Lemma onGameEnded_run r winner isDraw rd w :
  onGameEnded r winner isDraw rd w =
  detached (updateGameState r rd)
    (exec (setMessage (if isDraw then "Game ended in a draw!"
                       else if is_account winner (account r) then "You won!"
                            else "You lost!")) w).
Proof. reflexivity. Qed.

(** C9 as stated fails: a draw is announced while the board read of the
    refresh is rejected.  The contract reports phase code 2, yet the
    message ends as the message of the read error and the phase stays
    'playing'. *)
Lemma onGameEnded_draw_read_failure :
  let r := with_contract (Some 0)
             (with_gameState "playing"
                (with_account (Some "0xA11CE") initialState)) in
  let w := mkWorld r 1 [] [] [] in
  let rd := Contract.mkReads
              (mkPromise 1 (Rejected (mkError "network error")))
              (mkPromise 2 (Fulfilled 0%Z))
              (mkPromise 3 (Fulfilled 2%Z)) in
  let s' := ui (exec (onGameEnded r "0xB0B" true rd) w) in
  outcome (Contract.gameState rd) = Fulfilled 2%Z /\
  message s' = "network error" /\
  message s' <> "Game ended in a draw!" /\
  gameState s' = "playing" /\
  gameState s' <> "completed".
Proof.
  intros r w rd s'. vm_compute.
  repeat split; discriminate.
Qed.

(** C9, amended.  When [GameEnded] fires with [isDraw] true, the listener
    first sets the message to 'Game ended in a draw!' and starts the
    refresh in that state, and the message is that text in every state
    shown while the refresh is suspended.  If the render of the listener
    holds a contract object and the three reads succeed, the message is
    still that text when the refresh is over and the phase is
    [state_view] of the phase code, 'completed' for code 2.  If it holds
    a contract object and a read fails, the message becomes the message of
    the first read error and board, turn and phase stay as they were. *)
Theorem onGameEnded_draw
    (r : AppState) (w : world) (winner : string) (rd : Contract.reads) :
  let draw := "Game ended in a draw!" in
  let w' := exec (onGameEnded r winner true rd) w in
  (exists w1, ui w1 = with_message draw (ui w) /\
              w' = exec (updateGameState r rd) w1) /\
  (exists shown, trace w' = (trace w ++ shown)%list /\
                 Forall (fun s => message s = draw) shown) /\
  (forall c boardState turn state,
      contract r = Some c ->
      outcome (Contract.getBoard rd) = Fulfilled boardState ->
      outcome (Contract.currentTurn rd) = Fulfilled turn ->
      outcome (Contract.gameState rd) = Fulfilled state ->
      message (ui w') = draw /\
      gameState (ui w') = state_view state /\
      (state = 2%Z -> gameState (ui w') = "completed")) /\
  (forall c, contract r = Some c -> read_fails rd ->
      exists e, first_read_error rd e /\
                message (ui w') = err_message e /\
                gameView (ui w') = gameView (ui w)).
Proof.
  intros draw w'. subst w'. unfold exec. rewrite onGameEnded_run.
  set (w1 := exec (setMessage draw) w).
  assert (D : forall w0, snd (detached (updateGameState r rd) w0) =
                         snd (updateGameState r rd w0)).
  { intros w0. unfold detached. destruct (updateGameState r rd w0); reflexivity. }
  rewrite D. split; [|split; [|split]].
  - exists w1. split; reflexivity.
  - destruct (contract r) as [c|] eqn:Hc.
    + exists [ui w1]. destruct (all_reads rd) as [[[b t] s]|e] eqn:Hr.
      * rewrite (updateGameState_fulfilled _ _ _ _ _ _ _ Hc Hr).
        split; [reflexivity|]. constructor; [reflexivity|constructor].
      * rewrite (updateGameState_rejected _ _ _ _ _ Hc Hr).
        split; [reflexivity|]. constructor; [reflexivity|constructor].
    + exists []. rewrite (updateGameState_null _ _ _ Hc).
      split; [simpl; now rewrite app_nil_r | constructor].
  - intros c boardState turn state Hc Hb Ht Hs.
    assert (Hr : all_reads rd = Fulfilled (boardState, turn, state))
      by (apply Promise_all_fulfilled; assumption).
    rewrite (updateGameState_fulfilled _ _ _ _ _ _ _ Hc Hr). simpl.
    split; [reflexivity|]. split; [reflexivity|]. intros ->; reflexivity.
  - intros c Hc Hfail.
    destruct (Promise_all_some_rejected _ _ _ Hfail) as [e He].
    rewrite (updateGameState_rejected _ _ _ _ _ Hc He). simpl.
    exists e. split; [exact (Promise_all_rejected _ _ _ _ He)|].
    split; reflexivity.
Qed.

(** C9 amended, on a draw whose refresh goes through. *)
Lemma onGameEnded_draw_witness :
  let r := with_contract (Some 0)
             (with_gameState "playing"
                (with_account (Some "0xA11CE") initialState)) in
  let w := mkWorld r 1 [] [] [] in
  let full := [[1; 2; 1]; [1; 2; 2]; [2; 1; 1]]%Z in
  let rd := Contract.mkReads (mkPromise 2 (Fulfilled full))
              (mkPromise 1 (Fulfilled 1%Z)) (mkPromise 3 (Fulfilled 2%Z)) in
  let s' := ui (exec (onGameEnded r "0x0" true rd) w) in
  message s' = "Game ended in a draw!" /\ gameState s' = "completed".
Proof.
  intros r w full rd s'.
  destruct (onGameEnded_draw r w "0x0" rd) as (_ & _ & Hok & _).
  destruct (Hok 0 full 1%Z 2%Z eq_refl eq_refl eq_refl eq_refl)
    as (Hm & _ & Hs).
  split; [exact Hm | exact (Hs eq_refl)].
Defined.

(** ** Listeners and the cleanup of the effect *)

Lemma detached_run (c : js unit) w : detached c w = (Normal tt, exec c w).
Proof. unfold detached, exec. destruct (c w); reflexivity. Qed.

Lemma detached_listeners (c : js unit) w :
  listeners (exec (detached c) w) = listeners (exec c w).
Proof. unfold exec at 1. rewrite detached_run. reflexivity. Qed.

Lemma updateGameState_listeners r rd w :
  listeners (exec (updateGameState r rd) w) = listeners w.
Proof.
  unfold exec. destruct (contract r) as [c|] eqn:Hc.
  - destruct (all_reads rd) as [[[b t] s]|e] eqn:Hr.
    + rewrite (updateGameState_fulfilled _ _ _ _ _ _ _ Hc Hr). reflexivity.
    + rewrite (updateGameState_rejected _ _ _ _ _ Hc Hr). reflexivity.
  - rewrite (updateGameState_null _ _ _ Hc). reflexivity.
Qed.

(** An initialization that reaches its [on] calls adds exactly its three
    listeners, on the object it has just created. *)
Lemma init_subscribes formatEther r o w :
  reaches_subscriptions o ->
  listeners (exec (init formatEther r o) w) =
  (listeners w ++ subscriptions_of (next_handle w) r)%list.
Proof.
  intros (Hp & (chainId & Hn) & Hs & (stake & Hst)).
  assert (L : forall l : list subscription,
             (((l ++ [mkSubscription (next_handle w) GameStarted r]) ++
               [mkSubscription (next_handle w) MoveMade r]) ++
              [mkSubscription (next_handle w) GameEnded r])%list =
             (l ++ subscriptions_of (next_handle w) r)%list).
  { intros l. unfold subscriptions_of. now rewrite <- !app_assoc. }
  unfold exec, init, init_try, try_catch, bind, sync, await, new_Contract.
  rewrite Hp, Hn, Hs, Hst. cbn -[detached updateGameState].
  destruct (negb (chainId =? 1234)%Z); cbn -[detached updateGameState];
    destruct (Init.listAccounts o) as [[|a accounts]|e];
    cbn -[detached updateGameState];
    try rewrite detached_run; cbn -[updateGameState];
    try rewrite updateGameState_listeners; apply L.
Qed.

(** The cleanup of render [r] removes nothing registered on an object
    other than the [contract] of [r]. *)
Lemma cleanup_keeps r w s :
  In s (listeners w) -> contract r <> Some (sub_contract s) ->
  In s (listeners (exec (cleanup r) w)).
Proof.
  intros Hin Hne. unfold exec, cleanup.
  destruct (contract r) as [c|]; simpl; [|exact Hin].
  apply filter_In. split; [exact Hin|].
  destruct (Nat.eqb_spec (sub_contract s) c) as [E|]; [|reflexivity].
  exfalso; apply Hne; now subst.
Qed.

(** The object created by an initialization is not the [contract] of the
    render that runs it, so the cleanup of that render leaves the three
    listeners of that initialization in place. *)
Lemma own_listeners_survive_cleanup formatEther r o w :
  (forall c, contract r = Some c -> c < next_handle w) ->
  reaches_subscriptions o ->
  forall s, In s (subscriptions_of (next_handle w) r) ->
            In s (listeners (exec (cleanup r) (exec (effect formatEther r o) w))).
Proof.
  intros Hfresh Hreach s Hs. apply cleanup_keeps.
  - unfold effect. rewrite detached_listeners, init_subscribes by assumption.
    apply in_or_app; right; exact Hs.
  - intros E. unfold subscriptions_of in Hs. simpl in Hs.
    assert (sub_contract s = next_handle w)
      by (destruct Hs as [<-|[<-|[<-|[]]]]; reflexivity).
    specialize (Hfresh _ E). lia.
Qed.

(** *** The first mount, the account change and the disposal *)

(** C6 fails on the code.  The component is mounted with a wallet that
    has authorized an account.  The first initialization creates contract
    object 0 and registers its three listeners on it; its cleanup reads
    the [contract] of the first render, which is [null], and removes
    nothing.  So when the account changes from [null] to the authorized
    account, the effect runs again and the listeners of the first
    initialization are still registered next to the three new ones on
    object 1.  On disposal the cleanup in place removes the listeners of
    object 0, the [contract] of its render, and those registered by its own
    initialization on object 1 survive. *)
Theorem cleanup_leaves_own_listeners :
  let formatEther := fun _ : Z => "0.1" in
  let o := authorized "0xA11CE" in
  let w1 := exec (effect formatEther initialState o) initialWorld in
  let w2 := exec (rerun formatEther initialState o) w1 in
  let w3 := exec (unmount (ui w1)) w2 in
  account (ui w1) = Some "0xA11CE" /\
  contract (ui w1) = Some 0 /\
  listeners w1 = subscriptions_of 0 initialState /\
  listeners (exec (cleanup initialState) w1) = subscriptions_of 0 initialState /\
  listeners w2 =
    (subscriptions_of 0 initialState ++ subscriptions_of 1 (ui w1))%list /\
  listeners w3 = subscriptions_of 1 (ui w1).
Proof.
  intros formatEther o w1 w2 w3. vm_compute. repeat split.
Qed.

(** What the surviving listeners do: after the account change a
    [MoveMade] event still runs the listener of the first initialization,
    whose refresh reads the [null] contract of the first render and puts
    the [TypeError] text in the message, while the listener of the second
    initialization refreshes the board. *)
Example stale_listener_runs :
  let formatEther := fun _ : Z => "0.1" in
  let o := authorized "0xA11CE" in
  let w1 := exec (effect formatEther initialState o) initialWorld in
  let w2 := exec (rerun formatEther initialState o) w1 in
  let s := ui (exec (emit EvMoveMade board_in_play) w2) in
  message s = "Cannot read properties of null (reading 'getBoard')" /\
  board s = [[JStr "X"; JNum 0; JNum 0];
             [JNum 0; JStr "O"; JNum 0];
             [JNum 0; JNum 0; JNum 0]] /\
  gameState s = "playing".
Proof. vm_compute. repeat split. Qed.

(** * Further properties of the component *)

(** ** More rules of [keeps] *)

(** A step that touches neither the state nor the record of shown states. *)
Lemma keeps_silent {A} I (c : js A) :
  (forall w, ui (snd (c w)) = ui w /\ trace (snd (c w)) = trace w) ->
  keeps I c.
Proof.
  intros Hc w H. unfold exec. destruct (Hc w) as [E1 E2]. rewrite E1, E2.
  split; [exact H|]. exists []. split; [now rewrite app_nil_r | constructor].
Qed.

Lemma keeps_new_Contract I : keeps I new_Contract.
Proof. apply keeps_silent; intros w; split; reflexivity. Qed.

Lemma keeps_on I c ev r : keeps I (on c ev r).
Proof. apply keeps_silent; intros w; split; reflexivity. Qed.

Lemma keeps_removeAllListeners I c : keeps I (removeAllListeners c).
Proof. apply keeps_silent; intros w; split; reflexivity. Qed.

Lemma keeps_cleanup I r : keeps I (cleanup r).
Proof.
  unfold cleanup. destruct (contract r);
    [apply keeps_removeAllListeners | apply keeps_ret].
Qed.

(** As [keeps_all], for computations that also branch on what they read
    and that register listeners. *)
Ltac keeps_branching :=
  repeat first
    [ progress intros
    | apply keeps_bind | apply keeps_try_catch | apply keeps_try_finally
    | apply keeps_detached | apply keeps_await | apply keeps_sync
    | apply keeps_member | apply keeps_submit | apply keeps_ret
    | apply keeps_new_Contract | apply keeps_on | apply keeps_cleanup
    | keeps_setter
    | match goal with
      | |- keeps _ (match ?x with _ => _ end) => destruct x
      | |- keeps _ (if ?b then _ else _) => destruct b
      end ].

(** An invariant kept by every listener is kept by an event. *)
Lemma keeps_emit I ev rd :
  (forall s, keeps I (listener_body s ev rd)) -> keeps I (emit ev rd).
Proof.
  intros Hl w H. unfold exec, emit. simpl.
  assert (G : forall l w0 shown0,
             I (ui w0) -> trace w0 = (trace w ++ shown0)%list ->
             Forall I shown0 ->
             let w' := fold_left
                         (fun acc s =>
                            if event_name_eqb (sub_event s) (event_kind ev)
                            then exec (listener_body s ev rd) acc else acc)
                         l w0 in
             I (ui w') /\
             exists shown, trace w' = (trace w ++ shown)%list /\ Forall I shown).
  { induction l as [|s l IH]; intros w0 shown0 H0 E0 F0; simpl.
    - split; [exact H0|]. exists shown0; auto.
    - destruct (event_name_eqb (sub_event s) (event_kind ev)).
      + destruct (Hl s w0 H0) as (H1 & shown1 & E1 & F1).
        apply (IH _ (shown0 ++ shown1)%list H1).
        * rewrite E1, E0, app_assoc. reflexivity.
        * apply Forall_app; auto.
      + apply (IH _ shown0 H0 E0 F0). }
  apply (G (listeners w) w [] H); [now rewrite app_nil_r | constructor].
Qed.

Lemma keeps_rerun I formatEther r o :
  (forall r', keeps I (effect formatEther r' o)) ->
  keeps I (rerun formatEther r o).
Proof.
  intros He w H. unfold exec, rerun.
  destruct (same_account (account (ui w)) (account r)).
  - split; [exact H|]. exists []. split; [now rewrite app_nil_r | constructor].
  - apply (keeps_bind I (cleanup r) (fun _ => effect formatEther (ui w) o));
      [apply keeps_cleanup | intros _; apply He | exact H].
Qed.

(** An invariant kept by every action holds along every sequence. *)
Lemma keeps_run I formatEther :
  (forall a, keeps I (perform formatEther a)) ->
  forall l w, I (ui w) -> Forall I (trace w) ->
              I (ui (run formatEther l w)) /\
              Forall I (trace (run formatEther l w)).
Proof.
  intros Ha. induction l as [|a l IH]; intros w H F; simpl.
  - split; assumption.
  - destruct (Ha a w H) as (H1 & shown & E & F1).
    apply IH; [exact H1|]. rewrite E. apply Forall_app; auto.
Qed.

(** ** Phase, turn and board always hold values the page can draw *)

Lemma cell_view_ok code : cell_ok (cell_view code).
Proof.
  unfold cell_ok, cell_view.
  destruct (code =? 0)%Z; [auto|]. destruct (code =? 1)%Z; auto.
Qed.

Lemma board_view_ok boardState :
  Forall (fun row => Forall cell_ok row)
         (map (fun row => map cell_view row) boardState).
Proof.
  apply Forall_map, Forall_forall. intros row _.
  apply Forall_map, Forall_forall. intros code _. apply cell_view_ok.
Qed.

Lemma updateGameState_keeps_well_formed r rd :
  keeps well_formed (updateGameState r rd).
Proof.
  unfold updateGameState, updateGameState_try.
  apply keeps_try_catch; [|keeps_branching].
  apply keeps_bind; [apply keeps_member|]. intros _.
  apply keeps_bind; [apply keeps_await|]. intros [[boardState turn] state].
  apply keeps_bind; [|intros _; apply keeps_bind; intros].
  - apply keeps_modify. intros s (Hg & Ht & _).
    repeat split; [exact Hg | exact Ht | apply board_view_ok].
  - apply keeps_modify. intros s (Hg & _ & Hb).
    repeat split; [exact Hg | | exact Hb].
    unfold turn_view; simpl. destruct (turn =? 0)%Z; auto.
  - apply keeps_modify. intros s (_ & Ht & Hb).
    repeat split; [ | exact Ht | exact Hb].
    unfold state_view; simpl.
    destruct (state =? 0)%Z; [auto|]. destruct (state =? 1)%Z; auto.
Qed.

Lemma perform_keeps_well_formed formatEther a :
  keeps well_formed (perform formatEther a).
Proof.
  assert (Hl : forall r rd, keeps well_formed (detached (updateGameState r rd)))
    by (intros; apply keeps_detached, updateGameState_keeps_well_formed).
  assert (He : forall r o, keeps well_formed (effect formatEther r o)).
  { intros r o. unfold effect, init, init_try.
    apply keeps_detached, keeps_try_catch; [|keeps_branching].
    repeat first
      [ apply Hl | progress intros
      | apply keeps_bind | apply keeps_await | apply keeps_sync
      | apply keeps_ret | apply keeps_new_Contract | apply keeps_on
      | keeps_setter
      | match goal with
        | |- keeps _ (match ?x with _ => _ end) => destruct x
        | |- keeps _ (if ?b then _ else _) => destruct b
        end ]. }
  destruct a as [o|r o|r row col send|r i j send|r rd|request|r o|r o|r|ev rd];
    simpl.
  - unfold connectWallet, try_catch_finally, connectWallet_try. keeps_branching.
  - unfold joinGame, try_catch_finally, joinGame_try. keeps_branching.
  - unfold makeMove, try_catch_finally, makeMove_try. keeps_branching.
  - unfold cellClick.
    destruct (cell_rendered r i j) as [cell|]; [|apply keeps_ret].
    destruct (negb (loading r) && is_zero cell); [|apply keeps_ret].
    unfold makeMove, try_catch_finally, makeMove_try. keeps_branching.
  - apply updateGameState_keeps_well_formed.
  - unfold addMonadNetwork, addMonadNetwork_try. keeps_branching.
  - apply He.
  - apply keeps_rerun. intros r'. apply He.
  - apply keeps_cleanup.
  - apply keeps_emit. intros sub. destruct ev; simpl.
    + unfold onGameStarted. apply keeps_bind; [keeps_setter | intros; apply Hl].
    + apply Hl.
    + unfold onGameEnded. apply keeps_bind; [keeps_setter | intros; apply Hl].
Qed.

Lemma initialState_well_formed : well_formed initialState.
Proof.
  repeat split; simpl; auto.
  repeat constructor.
Qed.

(** X1. Whatever operations, effects and contract events happen to the
    component, in whatever order and with whatever results of the external
    calls, the phase is always one of 'waiting', 'playing', 'completed',
    the turn is 'X' or 'O', and every board cell is [0], 'X' or 'O' - in
    the state reached and in every state shown on the way. *)
Theorem view_always_well_formed
    (formatEther : Z -> string) (l : list action) :
  well_formed (ui (run formatEther l initialWorld)) /\
  Forall well_formed (trace (run formatEther l initialWorld)).
Proof.
  apply keeps_run.
  - apply perform_keeps_well_formed.
  - apply initialState_well_formed.
  - constructor.
Qed.

(** ** The page *)

Lemma render_panels_well_formed (r : AppState) c a :
  account r = Some (String c a) -> well_formed r ->
  exists connected stake panel,
    View.main (render r) = View.Game connected stake [panel] /\
    ((gameState r = "waiting" /\
      panel = View.JoinGame
                (View.mkButton (if loading r then "Joining..." else "Join Game")
                               (loading r))) \/
     (gameState r = "playing" /\
      panel = View.Board ("Current Turn: " ++ currentTurn r)
                         (map (fun row => map render_cell row) (board r))) \/
     (gameState r = "completed" /\ panel = View.PlayAgain)).
Proof.
  intros Ha ([Hg|[Hg|Hg]] & _). all: unfold render; rewrite Ha, Hg; simpl.
  all: do 3 eexists; split; [reflexivity|]; auto.
Qed.

(** X2. Along every sequence of operations, effects and events, the page
    shows the wallet button exactly when [account] is falsy, and otherwise
    exactly one of its three panels: the join button in phase 'waiting',
    the turn line and the board in phase 'playing', the play-again button
    in phase 'completed'. *)
Theorem page_shows_one_panel (formatEther : Z -> string) (l : list action) :
  let s := ui (run formatEther l initialWorld) in
  match View.main (render s) with
  | View.Wallet connect =>
      truthy (account s) = false /\
      View.disabled connect = loading s
  | View.Game _ _ panels =>
      truthy (account s) = true /\
      ((gameState s = "waiting" /\
        panels = [View.JoinGame
                    (View.mkButton
                       (if loading s then "Joining..." else "Join Game")
                       (loading s))]) \/
       (gameState s = "playing" /\
        panels = [View.Board ("Current Turn: " ++ currentTurn s)
                             (map (fun row => map render_cell row) (board s))]) \/
       (gameState s = "completed" /\ panels = [View.PlayAgain]))
  end.
Proof.
  intros s.
  assert (Hwf : well_formed s).
  { apply (keeps_run well_formed formatEther
             (perform_keeps_well_formed formatEther) l initialWorld
             initialState_well_formed (Forall_nil _)). }
  destruct (account s) as [[|c a]|] eqn:Ha.
  - unfold render. rewrite Ha. simpl. split; reflexivity.
  - destruct (render_panels_well_formed s c a Ha Hwf)
      as (connected & stake & panel & E & H).
    rewrite E. split; [reflexivity|].
    destruct H as [[Hg ->]|[[Hg ->]|[Hg ->]]]; auto.
  - unfold render. rewrite Ha. simpl. split; reflexivity.
Qed.

Lemma render_cell_view code : render_cell (cell_view code) = square_of_code code.
Proof.
  unfold render_cell, square_of_code, cell_view.
  destruct (Z.eqb_spec code 0) as [->|_]; [reflexivity|].
  destruct (code =? 1)%Z; reflexivity.
Qed.

(** X3. From the contract to the screen.  After a refresh whose reads
    succeed with phase code 1, a connected page shows the turn line
    'Current Turn: X' for turn code 0 and 'Current Turn: O' otherwise, and
    a board of the shape of the board read, where code 0 is an empty
    square at opacity 0.7, code 1 a blue 'X' and every other code a red
    'O'. *)
Theorem refresh_draws_board
    (r : AppState) (rd : Contract.reads) (w : world) (c : handle)
    (ch : Ascii.ascii) (a : string) (boardState : list (list Z)) (turn : Z)
    (Hc : contract r = Some c)
    (Ha : account (ui w) = Some (String ch a))
    (Hboard : outcome (Contract.getBoard rd) = Fulfilled boardState)
    (Hturn : outcome (Contract.currentTurn rd) = Fulfilled turn)
    (Hstate : outcome (Contract.gameState rd) = Fulfilled 1%Z) :
  View.main (render (ui (exec (updateGameState r rd) w))) =
  View.Game
    ("Connected: " ++ account_label (String ch a))
    ("Stake: " ++ stakeAmount (ui w) ++ " MONAD")
    [View.Board
       ("Current Turn: " ++ (if (turn =? 0)%Z then "X" else "O"))
       (map (fun row => map square_of_code row) boardState)].
Proof.
  assert (Hr : all_reads rd = Fulfilled (boardState, turn, 1%Z))
    by (apply Promise_all_fulfilled; assumption).
  assert (Hcells :
            map (fun row => map render_cell row)
                (map (fun row => map cell_view row) boardState) =
            map (fun row => map square_of_code row) boardState).
  { rewrite map_map. apply map_ext. intros row. rewrite map_map.
    apply map_ext. intros code. apply render_cell_view. }
  unfold exec. rewrite (updateGameState_fulfilled _ _ _ _ _ _ _ Hc Hr).
  unfold render. cbn [bind setBoard setCurrentTurn setGameState modify_ui
    suspended snd ui account gameState currentTurn board stakeAmount
    with_board with_currentTurn with_gameState state_view Z.eqb
    Pos.eqb String.eqb Ascii.eqb Bool.eqb when app].
  rewrite Ha, Hcells. reflexivity.
Qed.

(** X3, on a board with the three codes and an unexpected code 9. *)
Lemma refresh_draws_board_witness :
  let r := with_contract (Some 0) initialState in
  let w := mkWorld (with_account (Some "0xA11CE") initialState) 1 [] [] [] in
  let rd := Contract.mkReads (mkPromise 1 (Fulfilled [[0; 1]; [2; 9]]%Z))
              (mkPromise 1 (Fulfilled 1%Z)) (mkPromise 1 (Fulfilled 1%Z)) in
  View.main (render (ui (exec (updateGameState r rd) w))) =
  View.Game "Connected: 0xA11C...11CE" "Stake: 0 MONAD"
    [View.Board "Current Turn: O"
       [[View.mkCell "" "#f44336" "0.7"; View.mkCell "X" "#2196f3" "1"];
        [View.mkCell "O" "#f44336" "1"; View.mkCell "O" "#f44336" "1"]]].
Proof.
  intros r w rd.
  exact (refresh_draws_board r rd w 0 _ _ [[0; 1]; [2; 9]]%Z 1%Z
           eq_refl eq_refl eq_refl eq_refl eq_refl).
Defined.

Lemma is_zero_cell_view code : is_zero (cell_view code) = (code =? 0)%Z.
Proof.
  unfold cell_view. destruct (Z.eqb_spec code 0) as [->|_]; [reflexivity|].
  destruct (code =? 1)%Z; reflexivity.
Qed.

Lemma exec_detached (c : js unit) w : exec (detached c) w = exec c w.
Proof. unfold exec at 1. rewrite detached_run. reflexivity. Qed.

(** X4. A refresh followed by a click.  On the page drawn after a
    successful refresh with phase code 1, for a connected account and with
    [loading] false, a click on the square of row [i] and column [j]
    requests the move [(i, j)] from the contract object of the state when
    the code read for that square is 0, and does nothing at all when the
    code is another one or the board read has no such square. *)
Theorem click_after_refresh
    (r : AppState) (rd : Contract.reads) (w : world) (c c' : handle)
    (ch : Ascii.ascii) (a : string) (boardState : list (list Z)) (turn : Z)
    (send : Z -> Z -> settled Contract.tx) (i j : nat) (w2 : world)
    (Hc : contract r = Some c)
    (Hc' : contract (ui w) = Some c')
    (Ha : account (ui w) = Some (String ch a))
    (Hl : loading (ui w) = false)
    (Hboard : outcome (Contract.getBoard rd) = Fulfilled boardState)
    (Hturn : outcome (Contract.currentTurn rd) = Fulfilled turn)
    (Hstate : outcome (Contract.gameState rd) = Fulfilled 1%Z) :
  let s' := ui (exec (updateGameState r rd) w) in
  match code_at boardState i j with
  | Some 0%Z =>
      calls (exec (cellClick s' i j send) w2) =
      (calls w2 ++ [CallMakeMove c' (Z.of_nat i) (Z.of_nat j)])%list
  | _ => exec (cellClick s' i j send) w2 = w2
  end.
Proof.
  intros s'.
  assert (Hr : all_reads rd = Fulfilled (boardState, turn, 1%Z))
    by (apply Promise_all_fulfilled; assumption).
  assert (E : s' = with_gameState "playing"
                     (with_currentTurn (turn_view turn)
                        (with_board (map (fun row => map cell_view row) boardState)
                           (ui w)))).
  { subst s'. unfold exec.
    rewrite (updateGameState_fulfilled _ _ _ _ _ _ _ Hc Hr). reflexivity. }
  assert (Hcell : cell_rendered s' i j =
                  option_map cell_view (code_at boardState i j)).
  { rewrite E. unfold cell_rendered, code_at. simpl. rewrite Ha. simpl.
    rewrite nth_error_map. destruct (nth_error boardState i) as [row|]; simpl;
      [apply nth_error_map | reflexivity]. }
  assert (Hs : loading s' = false /\ contract s' = Some c')
    by (rewrite E; simpl; auto).
  destruct Hs as [Hl' Hc2]. unfold cellClick. rewrite Hcell, Hl'.
  destruct (code_at boardState i j) as [code|]; simpl; [|reflexivity].
  rewrite is_zero_cell_view.
  destruct (Z.eqb_spec code 0) as [->|Hne].
  - rewrite exec_detached. apply makeMove_submits, Hc2.
  - destruct code; try reflexivity. contradiction.
Qed.

(** X4, on the squares of a board [[0; 1]; [2; 0]]: the empty square
    (1,1), the occupied square (0,1) and a square outside the board. *)
Lemma click_after_refresh_witness :
  let s := with_contract (Some 0) (with_account (Some "0xA11CE") initialState) in
  let w := mkWorld s 1 [] [] [] in
  let rd := Contract.mkReads (mkPromise 1 (Fulfilled [[0; 1]; [2; 0]]%Z))
              (mkPromise 1 (Fulfilled 1%Z)) (mkPromise 1 (Fulfilled 1%Z)) in
  let send := fun _ _ : Z => Fulfilled (Contract.mkTx (Fulfilled tt)) in
  let w2 := exec (updateGameState s rd) w in
  calls (exec (cellClick (ui w2) 1 1 send) w2) = [CallMakeMove 0 1 1] /\
  exec (cellClick (ui w2) 0 1 send) w2 = w2 /\
  exec (cellClick (ui w2) 2 0 send) w2 = w2.
Proof.
  intros s w rd send w2.
  pose proof (fun i j =>
    click_after_refresh s rd w 0 0 _ _ [[0; 1]; [2; 0]]%Z 1%Z send i j w2
      eq_refl eq_refl eq_refl eq_refl eq_refl eq_refl eq_refl) as H.
  split; [exact (H 1 1)|]. split; [exact (H 0 1) | exact (H 2 0)].
Defined.

(** ** The short form of the account *)

Lemma length_append (s t : string) :
  String.length (s ++ t) = String.length s + String.length t.
Proof. induction s as [|c s IH]; simpl; [reflexivity | now rewrite IH]. Qed.

Lemma substring_0_prefix n s :
  exists rest, s = String.substring 0 n s ++ rest /\
               String.length (String.substring 0 n s) = Nat.min n (String.length s).
Proof.
  revert n. induction s as [|c s IH]; intros [|n]; simpl.
  - exists ""; auto.
  - exists ""; auto.
  - exists (String c s); auto.
  - destruct (IH n) as (rest & E & L). exists rest. split.
    + f_equal. exact E.
    + now rewrite L.
Qed.

Lemma substring_0_all s : String.substring 0 (String.length s) s = s.
Proof. induction s as [|c s IH]; simpl; [reflexivity | now rewrite IH]. Qed.

Lemma substring_suffix k m s :
  k + m = String.length s ->
  exists pre, s = pre ++ String.substring k m s /\
              String.length (String.substring k m s) = m.
Proof.
  revert k m. induction s as [|c s IH]; intros k m H; simpl in H.
  - assert (k = 0) by lia. assert (m = 0) by lia. subst.
    exists "". split; reflexivity.
  - destruct k as [|k].
    + simpl in H. subst m. exists "". split.
      * change (String.substring 0 (S (String.length s)) (String c s))
          with (String c (String.substring 0 (String.length s) s)).
        now rewrite substring_0_all.
      * change (String.substring 0 (S (String.length s)) (String c s))
          with (String c (String.substring 0 (String.length s) s)).
        now rewrite substring_0_all.
    + destruct (IH k m) as (pre & E & L); [simpl in H; lia|].
      exists (String c pre). split.
      * change (String.substring (S k) m (String c s))
          with (String.substring k m s).
        simpl. f_equal. exact E.
      * exact L.
Qed.

(** X5. The status line shortens the account to the text of its first six
    characters, three dots and its last four characters.  For an account
    shorter than that the two parts are as long as the account allows (they
    then overlap), so the short form is never longer than 13 characters and
    both parts are always taken from the account itself. *)
Theorem account_label_shape (a : string) :
  exists first last,
    account_label a = first ++ "..." ++ last /\
    starts_with first a /\ ends_with last a /\
    String.length first = Nat.min 6 (String.length a) /\
    String.length last = Nat.min 4 (String.length a) /\
    String.length (account_label a) <= 13.
Proof.
  unfold account_label, slice, slice_index.
  set (len := String.length a).
  assert (E1 : Z.to_nat (Z.min 0 (Z.of_nat len)) = 0) by lia.
  assert (E2 : Z.to_nat (Z.min 6 (Z.of_nat len) - Z.min 0 (Z.of_nat len)) =
               Nat.min 6 len) by lia.
  assert (E3 : Z.to_nat (Z.of_nat len - Z.max (Z.of_nat len + -4) 0) =
               Nat.min 4 len) by lia.
  change (0 <? 0)%Z with false. change (6 <? 0)%Z with false.
  change (-4 <? 0)%Z with true. cbv iota. rewrite E1, E2, E3.
  destruct (substring_0_prefix (Nat.min 6 len) a) as (rest & P & LP).
  destruct (substring_suffix (Z.to_nat (Z.max (Z.of_nat len + -4) 0))
              (Nat.min 4 len) a) as (pre & S & LS); [fold len; lia|].
  exists (String.substring 0 (Nat.min 6 len) a),
         (String.substring (Z.to_nat (Z.max (Z.of_nat len + -4) 0))
                           (Nat.min 4 len) a).
  split; [reflexivity|]. split; [exists rest; exact P|].
  split; [exists pre; exact S|].
  fold len in LP. split; [rewrite LP; lia|]. split; [exact LS|].
  rewrite !length_append, LP, LS. cbn [String.length]. lia.
Qed.

(** ** [connectWallet] when it goes through *)

(** X6. When the provider is obtained and the account request is
    fulfilled, [connectWallet] stores the first account returned, sets the
    message to 'Connected to wallet' and leaves [loading] false; nothing
    else changes.  With an empty list of accounts nothing is stored as the
    account, yet the message is the same: the page then still shows the
    connect button under the status 'Connected to wallet'. *)
Theorem connectWallet_success
    (o : Wallet.connect) (w : world) (accounts : list string)
    (Hprovider : Wallet.getProvider o = Normal tt)
    (Hrequest : Wallet.eth_requestAccounts o = Fulfilled accounts) :
  let s' := ui (exec (connectWallet o) w) in
  s' = with_loading false
         (with_message "Connected to wallet"
            (with_account (hd_error accounts) (ui w))) /\
  (accounts = [] ->
   View.main (render s') = View.Wallet (View.mkButton "Connect Wallet" false) /\
   View.status (render s') = "Connected to wallet").
Proof.
  intros s'.
  assert (E : s' = with_loading false
                     (with_message "Connected to wallet"
                        (with_account (hd_error accounts) (ui w)))).
  { subst s'.
    unfold exec, connectWallet, connectWallet_try, try_catch_finally,
      try_finally, try_catch, bind, sync, await.
    rewrite Hprovider. simpl. rewrite Hrequest. reflexivity. }
  split; [exact E|]. intros ->. rewrite E. split; reflexivity.
Qed.

(** X6, for a wallet that returns two accounts and for one that returns
    none. *)
Lemma connectWallet_success_witness :
  let two := Wallet.mkConnect (Normal tt) (Fulfilled ["0xA11CE"; "0xB0B"]) in
  let none := Wallet.mkConnect (Normal tt) (Fulfilled []) in
  account (ui (exec (connectWallet two) initialWorld)) = Some "0xA11CE" /\
  account (ui (exec (connectWallet none) initialWorld)) = None /\
  View.status (render (ui (exec (connectWallet none) initialWorld))) =
  "Connected to wallet".
Proof.
  intros two none.
  destruct (connectWallet_success two initialWorld ["0xA11CE"; "0xB0B"]
              eq_refl eq_refl) as [E2 _].
  destruct (connectWallet_success none initialWorld [] eq_refl eq_refl)
    as [E0 H0].
  split; [rewrite E2; reflexivity|]. split; [rewrite E0; reflexivity|].
  exact (proj2 (H0 eq_refl)).
Defined.

(** X7. [connectWallet] raises the busy flag like the two transaction
    operations: it always returns normally, [loading] is true in the state
    shown while the account request is pending, and false in the state it
    leaves, whether the request is granted, rejected, or never made because
    no provider could be obtained. *)
Theorem loading_during_connectWallet (o : Wallet.connect) (w : world) :
  fst (connectWallet o w) = Normal tt /\
  loading (ui (exec (connectWallet o) w)) = false /\
  exists shown,
    trace (exec (connectWallet o) w) = (trace w ++ shown)%list /\
    Forall (fun s => loading s = true) shown /\
    (Wallet.getProvider o = Normal tt -> List.length shown = 1).
Proof.
  unfold exec, connectWallet, connectWallet_try, try_catch_finally,
    try_finally, try_catch, bind, sync, await.
  destruct (Wallet.getProvider o) as [[]|e]; simpl.
  - destruct (Wallet.eth_requestAccounts o); simpl;
      (split; [reflexivity|]; split; [reflexivity|];
       exists [with_loading true (ui w)];
       split; [reflexivity|]; split; [repeat constructor | reflexivity]).
  - split; [reflexivity|]. split; [reflexivity|].
    exists []. split; [now rewrite app_nil_r|].
    split; [constructor | discriminate].
Qed.

(** ** What [joinGame] and [makeMove] request and report *)

(** The requests of one [joinGame]. *)
Lemma joinGame_calls (r : AppState) (o : Join.oracle) (w : world) :
  calls (exec (joinGame r o) w) =
  (calls w ++
   match contract r, Join.stakeAmount o with
   | Some c, Fulfilled value => [CallJoinGame c value]
   | _, _ => []
   end)%list.
Proof.
  unfold exec, joinGame, joinGame_try, try_catch_finally, try_finally,
    try_catch, bind, member, await.
  destruct (contract r) as [c|]; simpl; [|now rewrite app_nil_r].
  destruct (Join.stakeAmount o) as [value|e]; simpl; [|now rewrite app_nil_r].
  destruct (Join.joinGame o value) as [tx|e]; simpl; [|reflexivity].
  destruct (Contract.wait tx); reflexivity.
Qed.


(** X8. [joinGame] requests at most one transaction: exactly one, paying
    the stake it has just read from the contract (not the stake shown on
    the page), when the render holds a contract object and that read
    succeeds; none when the render holds no contract object or the read of
    the stake fails. *)
Theorem joinGame_requests (r : AppState) (o : Join.oracle) (w : world) :
  calls (exec (joinGame r o) w) =
  (calls w ++
   match contract r, Join.stakeAmount o with
   | Some c, Fulfilled value => [CallJoinGame c value]
   | _, _ => []
   end)%list.
Proof. apply joinGame_calls. Qed.

(** X9. Neither [joinGame] nor [makeMove] nor [addMonadNetwork] reports
    success.  After a join that is mined the message is still 'Waiting for
    transaction...', after a move that is mined it is still 'Processing
    your move...', and after a granted network request the state is what it
    was; in the first two nothing but the message and [loading] (false at
    the end) has changed. *)
Theorem success_is_not_reported (r : AppState) (w : world) (c : handle)
    (Hc : contract r = Some c) :
  (forall o value tx,
      Join.stakeAmount o = Fulfilled value ->
      Join.joinGame o value = Fulfilled tx ->
      Contract.wait tx = Fulfilled tt ->
      ui (exec (joinGame r o) w) =
      with_loading false (with_message "Waiting for transaction..." (ui w))) /\
  (forall row col send tx,
      send row col = Fulfilled tx ->
      Contract.wait tx = Fulfilled tt ->
      ui (exec (makeMove r row col send) w) =
      with_loading false (with_message "Processing your move..." (ui w))) /\
  ui (exec (addMonadNetwork (Fulfilled tt)) w) = ui w.
Proof.
  split; [|split].
  - intros o value tx Hs Hj Hw.
    unfold exec, joinGame, joinGame_try, try_catch_finally, try_finally,
      try_catch, bind, member, await.
    rewrite Hc. simpl. rewrite Hs. simpl. rewrite Hj. simpl. rewrite Hw.
    reflexivity.
  - intros row col send tx Hs Hw.
    unfold exec, makeMove, makeMove_try, try_catch_finally, try_finally,
      try_catch, bind, member, await.
    rewrite Hc. simpl. rewrite Hs. simpl. rewrite Hw. reflexivity.
  - reflexivity.
Qed.

(** X9, for a join and a move that are mined. *)
Lemma success_is_not_reported_witness :
  let r := with_contract (Some 0) initialState in
  let w := mkWorld r 1 [] [] [] in
  let mined := Contract.mkTx (Fulfilled tt) in
  message (ui (exec (joinGame r (Join.mkOracle (Fulfilled 5%Z)
                                   (fun _ => Fulfilled mined))) w)) =
  "Waiting for transaction..." /\
  message (ui (exec (makeMove r 1 2 (fun _ _ => Fulfilled mined)) w)) =
  "Processing your move...".
Proof.
  intros r w mined.
  destruct (success_is_not_reported r w 0 eq_refl) as (Hj & Hm & _).
  split.
  - rewrite (Hj (Join.mkOracle (Fulfilled 5%Z) (fun _ => Fulfilled mined))
               5%Z mined eq_refl eq_refl eq_refl). reflexivity.
  - rewrite (Hm 1%Z 2%Z (fun _ _ => Fulfilled mined) mined eq_refl eq_refl).
    reflexivity.
Defined.

(** X10. Called by a render that holds no contract object, [joinGame] and
    [makeMove] request nothing and wait for nothing: they end at once with
    the text of the [TypeError] as the message and [loading] false, and
    the rest of the world is untouched. *)
Theorem no_contract_no_request (r : AppState) (w : world)
    (Hc : contract r = None) :
  (forall o,
      exec (joinGame r o) w =
      mkWorld (with_loading false
                 (with_message (err_message (TypeError_null "joinGame")) (ui w)))
              (next_handle w) (listeners w) (calls w) (trace w)) /\
  (forall row col send,
      exec (makeMove r row col send) w =
      mkWorld (with_loading false
                 (with_message (err_message (TypeError_null "makeMove")) (ui w)))
              (next_handle w) (listeners w) (calls w) (trace w)).
Proof.
  split.
  - intros o.
    unfold exec, joinGame, joinGame_try, try_catch_finally, try_finally,
      try_catch, bind, member.
    rewrite Hc. reflexivity.
  - intros row col send.
    unfold exec, makeMove, makeMove_try, try_catch_finally, try_finally,
      try_catch, bind, member.
    rewrite Hc. reflexivity.
Qed.

(** X10, for the join button of a page whose initialization failed. *)
Lemma no_contract_no_request_witness :
  let r := with_account (Some "0xA11CE") initialState in
  let w := mkWorld r 0 [] [] [] in
  let o := Join.mkOracle (Fulfilled 5%Z)
             (fun _ => Fulfilled (Contract.mkTx (Fulfilled tt))) in
  message (ui (exec (joinGame r o) w)) =
  "Cannot read properties of null (reading 'joinGame')" /\
  calls (exec (joinGame r o) w) = [].
Proof.
  intros r w o.
  destruct (no_contract_no_request r w eq_refl) as [Hj _].
  rewrite (Hj o). split; reflexivity.
Defined.

(** X7, for a request that the user rejects. *)
Lemma loading_during_connectWallet_witness :
  let o := Wallet.mkConnect (Normal tt) (Rejected (mkError "rejected")) in
  loading (ui (exec (connectWallet o) initialWorld)) = false /\
  trace (exec (connectWallet o) initialWorld) = [with_loading true initialState].
Proof.
  intros o.
  destruct (loading_during_connectWallet o initialWorld)
    as (_ & Hl & shown & _ & _ & _).
  split; [exact Hl | reflexivity].
Defined.

(** ** Which operation writes what *)

(** *** Rules of [preserves] *)

Section Preserves.

Context {X : Type} (f : world -> X).

(** [f] reads neither the React state nor the record of shown states. *)
Hypothesis f_ui : forall g w, f (snd (modify_ui g w)) = f w.
Hypothesis f_trace : forall w, f (suspended w) = f w.

Lemma preserves_ret {A} (a : A) : preserves f (ret a).
Proof. intros w; reflexivity. Qed.

Lemma preserves_sync {A} (c : completion A) : preserves f (sync c).
Proof. intros w; reflexivity. Qed.

Lemma preserves_member c prop : preserves f (member c prop).
Proof. intros w. unfold exec, member. destruct c; reflexivity. Qed.

Lemma preserves_await {A} (p : settled A) : preserves f (await p).
Proof. intros w. apply f_trace. Qed.

Lemma preserves_modify g : preserves f (modify_ui g).
Proof. intros w. apply f_ui. Qed.

Lemma preserves_bind {A B} (c : js A) (k : A -> js B) :
  preserves f c -> (forall a, preserves f (k a)) -> preserves f (bind c k).
Proof.
  intros Hc Hk w. specialize (Hc w). unfold exec, bind in *.
  destruct (c w) as [[a|e] w1]; simpl in *; [|exact Hc].
  rewrite <- Hc. apply (Hk a w1).
Qed.

Lemma preserves_try_catch {A} (body : js A) handler :
  preserves f body -> (forall e, preserves f (handler e)) ->
  preserves f (try_catch body handler).
Proof.
  intros Hc Hk w. specialize (Hc w). unfold exec, try_catch in *.
  destruct (body w) as [[a|e] w1]; simpl in *; [exact Hc|].
  rewrite <- Hc. apply (Hk e w1).
Qed.

Lemma preserves_try_finally {A} (body : js A) fin :
  preserves f body -> preserves f fin -> preserves f (try_finally body fin).
Proof.
  intros Hc Hk w. specialize (Hc w). unfold exec, try_finally in *.
  destruct (body w) as [res w1]; simpl in *.
  specialize (Hk w1). unfold exec in Hk.
  destruct (fin w1) as [[u|e] w2]; simpl in *; congruence.
Qed.

Lemma preserves_detached (c : js unit) :
  preserves f c -> preserves f (detached c).
Proof. intros Hc w. rewrite exec_detached. apply Hc. Qed.

Lemma preserves_emit ev rd :
  (forall s, preserves f (listener_body s ev rd)) -> preserves f (emit ev rd).
Proof.
  intros Hl w. unfold exec, emit. simpl.
  assert (G : forall l w0,
             f (fold_left
                  (fun acc s =>
                     if event_name_eqb (sub_event s) (event_kind ev)
                     then exec (listener_body s ev rd) acc else acc)
                  l w0) = f w0).
  { induction l as [|s l IH]; intros w0; simpl; [reflexivity|].
    rewrite IH. destruct (event_name_eqb (sub_event s) (event_kind ev));
      [apply Hl | reflexivity]. }
  apply G.
Qed.

End Preserves.

(** Solves [preserves f c] for a computation [c] built from the primitives
    that [f] does not read. *)
Ltac preserves_side := solve [assumption | intros; reflexivity].

Ltac preserves_step :=
  match goal with
  | |- forall _, _ => intro
  | |- preserves _ (bind _ _) => apply preserves_bind
  | |- preserves _ (try_catch _ _) => apply preserves_try_catch
  | |- preserves _ (try_finally _ _) => apply preserves_try_finally
  | |- preserves _ (detached _) => apply preserves_detached
  | |- preserves _ (await _) => apply preserves_await; preserves_side
  | |- preserves _ (sync _) => apply preserves_sync
  | |- preserves _ (member _ _) => apply preserves_member
  | |- preserves _ (ret _) => apply preserves_ret
  | |- preserves _ (modify_ui _) => apply preserves_modify; preserves_side
  | |- preserves _ (match ?x with _ => _ end) => destruct x
  | |- preserves _ (if ?b then _ else _) => destruct b
  end.

Ltac preserves_all := repeat preserves_step.

Lemma updateGameState_preserves {X} (f : world -> X) r rd :
  (forall g w, f (snd (modify_ui g w)) = f w) ->
  (forall w, f (suspended w) = f w) ->
  preserves f (updateGameState r rd).
Proof.
  intros Hu Ht. unfold updateGameState, updateGameState_try.
  unfold setBoard, setCurrentTurn, setGameState, setMessage. preserves_all.
Qed.

Lemma listener_preserves {X} (f : world -> X) s ev rd :
  (forall g w, f (snd (modify_ui g w)) = f w) ->
  (forall w, f (suspended w) = f w) ->
  preserves f (listener_body s ev rd).
Proof.
  intros Hu Ht.
  destruct ev; simpl; unfold onGameStarted, onMoveMade, onGameEnded, setMessage.
  - apply preserves_bind; [apply preserves_modify, Hu|]. intros _.
    apply preserves_detached, updateGameState_preserves; assumption.
  - apply preserves_detached, updateGameState_preserves; assumption.
  - apply preserves_bind; [apply preserves_modify, Hu|]. intros _.
    apply preserves_detached, updateGameState_preserves; assumption.
Qed.

Lemma init_preserves_calls formatEther r o :
  preserves calls (init formatEther r o).
Proof.
  unfold init, init_try, setMessage, setContract, setStakeAmount, setAccount.
  repeat first
    [ preserves_step
    | apply updateGameState_preserves; preserves_side
    | match goal with
      | |- preserves calls new_Contract => intros w0; reflexivity
      | |- preserves calls (on _ _ _) => intros w0; reflexivity
      end ].
Qed.

Lemma cleanup_preserves {X} (f : world -> X) r :
  (forall c w, f (snd (removeAllListeners c w)) = f w) ->
  preserves f (cleanup r).
Proof.
  intros H. unfold cleanup. destruct (contract r); intros w;
    [apply H | reflexivity].
Qed.

Lemma rerun_preserves {X} (f : world -> X) formatEther r o :
  preserves f (cleanup r) ->
  (forall r', preserves f (init formatEther r' o)) ->
  preserves f (rerun formatEther r o).
Proof.
  intros Hc Hi w. unfold exec, rerun.
  destruct (same_account (account (ui w)) (account r)); [reflexivity|].
  apply (preserves_bind f (cleanup r) (fun _ => effect formatEther (ui w) o));
    [exact Hc|]. intros _. apply preserves_detached, Hi.
Qed.

Lemma makeMove_requests r row col send w :
  calls (exec (makeMove r row col send) w) =
  (calls w ++
   match contract r with
   | Some c => [CallMakeMove c row col]
   | None => []
   end)%list.
Proof.
  destruct (contract r) as [c|] eqn:Hc; [apply makeMove_submits, Hc|].
  unfold exec, makeMove, makeMove_try, try_catch_finally, try_finally,
    try_catch, bind, member.
  rewrite Hc. simpl. now rewrite app_nil_r.
Qed.

(** X11. Transactions are requested by [joinGame] and [makeMove] only, at
    most one per call (a click on a square is at most one [makeMove]).
    [connectWallet], [updateGameState], [addMonadNetwork], the effect with
    its initialization and cleanup, and the listeners of the contract
    events never request one. *)
Theorem requests_only_from_joinGame_and_makeMove
    (formatEther : Z -> string) (a : action) (w : world) :
  match a with
  | DoJoinGame _ _ | DoMakeMove _ _ _ _ | DoCellClick _ _ _ _ =>
      exists extra,
        calls (exec (perform formatEther a) w) = (calls w ++ extra)%list /\
        List.length extra <= 1
  | _ => calls (exec (perform formatEther a) w) = calls w
  end.
Proof.
  destruct a as [o|r o|r row col send|r i j send|r rd|request|r o|r o|r|ev rd];
    simpl.
  - revert w. change (preserves calls (connectWallet o)).
    unfold connectWallet, try_catch_finally, connectWallet_try,
      setLoading, setAccount, setMessage. preserves_all.
  - rewrite joinGame_calls. eexists; split; [reflexivity|].
    destruct (contract r); [destruct (Join.stakeAmount o)|]; simpl; lia.
  - rewrite makeMove_requests. eexists; split; [reflexivity|].
    destruct (contract r); simpl; lia.
  - unfold cellClick. destruct (cell_rendered r i j) as [cell|];
      [|exists []; split; [now rewrite app_nil_r | simpl; lia]].
    destruct (negb (loading r) && is_zero cell);
      [|exists []; split; [now rewrite app_nil_r | simpl; lia]].
    rewrite exec_detached, makeMove_requests. eexists; split; [reflexivity|].
    destruct (contract r); simpl; lia.
  - apply updateGameState_preserves; preserves_side.
  - revert w. change (preserves calls (addMonadNetwork request)).
    unfold addMonadNetwork, addMonadNetwork_try, setMessage. preserves_all.
  - unfold effect. rewrite exec_detached. apply init_preserves_calls.
  - apply rerun_preserves.
    + apply cleanup_preserves. reflexivity.
    + intros r'. apply init_preserves_calls.
  - apply cleanup_preserves. reflexivity.
  - apply preserves_emit; try preserves_side.
    intros s. apply listener_preserves; preserves_side.
Qed.

Lemma init_listeners formatEther r o w :
  (reaches_subscriptions o /\
   listeners (exec (init formatEther r o) w) =
   (listeners w ++ subscriptions_of (next_handle w) r)%list /\
   next_handle (exec (init formatEther r o) w) = S (next_handle w)) \/
  (~ reaches_subscriptions o /\
   listeners (exec (init formatEther r o) w) = listeners w /\
   next_handle w <= next_handle (exec (init formatEther r o) w)).
Proof.
  destruct (Init.getProvider o) as [[]|e1] eqn:Hp;
    [|right; split;
      [intros (H & _); rewrite Hp in H; discriminate|];
      unfold exec, init, init_try, try_catch, bind, sync;
      rewrite Hp; simpl; auto].
  destruct (Init.getNetwork o) as [chainId|e2] eqn:Hn;
    [|right; split;
      [intros (_ & (x & H) & _); rewrite Hn in H; discriminate|];
      unfold exec, init, init_try, try_catch, bind, sync, await;
      rewrite Hp, Hn; simpl; auto].
  destruct (Init.getSigner o) as [[]|e3] eqn:Hs;
    [|right; split;
      [intros (_ & _ & H & _); rewrite Hs in H; discriminate|];
      unfold exec, init, init_try, try_catch, bind, sync, await;
      rewrite Hp, Hn, Hs; simpl;
      destruct (negb (chainId =? 1234)%Z); simpl; auto].
  destruct (Init.stakeAmount o) as [stake|e4] eqn:Hst;
    [|right; split;
      [intros (_ & _ & _ & (x & H)); rewrite Hst in H; discriminate|];
      unfold exec, init, init_try, try_catch, bind, sync, await, new_Contract;
      rewrite Hp, Hn, Hs, Hst; simpl;
      destruct (negb (chainId =? 1234)%Z); simpl; auto].
  left.
  assert (Hreach : reaches_subscriptions o).
  { unfold reaches_subscriptions. rewrite Hp, Hn, Hs, Hst.
    repeat split; eauto. }
  split; [exact Hreach|]. split; [apply init_subscribes, Hreach|].
  unfold exec, init, init_try, try_catch, bind, sync, await, new_Contract.
  rewrite Hp, Hn, Hs, Hst. cbn -[detached updateGameState].
  destruct (negb (chainId =? 1234)%Z); cbn -[detached updateGameState];
    destruct (Init.listAccounts o) as [[|a accounts]|e];
    cbn -[detached updateGameState];
    try rewrite detached_run; cbn -[updateGameState];
    try (change (next_handle (snd (updateGameState ?r0 ?rd0 ?w0)))
           with (next_handle (exec (updateGameState r0 rd0) w0)));
    try rewrite (updateGameState_preserves next_handle);
    try reflexivity; try preserves_side.
Qed.

(** The listeners and the count of contract objects, together. *)
Lemma registry_unchanged (c : js unit) w :
  preserves (fun w0 => (listeners w0, next_handle w0)) c ->
  listeners (exec c w) = listeners w /\ next_handle (exec c w) = next_handle w.
Proof. intros H. specialize (H w). inversion H. auto. Qed.

Ltac preserves_registry :=
  repeat first
    [ preserves_step
    | apply updateGameState_preserves; preserves_side
    | match goal with
      | |- preserves _ (submit _) => intros w0; reflexivity
      end ].

(** X12. Listeners are registered by the initialization and removed by
    the cleanup, and by nothing else.  An initialization registers its
    three listeners together, on the object it has just created and after
    the listeners already there, or registers none (when a call before the
    registrations fails); it removes none.  The cleanup removes exactly the
    listeners attached to the [contract] of its render and keeps all
    others.  Every other operation, and every event, leaves the listeners
    and the contract objects as they are. *)
Theorem listeners_written_by_effect_only
    (formatEther : Z -> string) (a : action) (w : world) :
  let w' := exec (perform formatEther a) w in
  match a with
  | DoEffect r o =>
      (reaches_subscriptions o /\
       listeners w' = (listeners w ++ subscriptions_of (next_handle w) r)%list /\
       next_handle w' = S (next_handle w)) \/
      (~ reaches_subscriptions o /\ listeners w' = listeners w /\
       next_handle w <= next_handle w')
  | DoCleanup r =>
      next_handle w' = next_handle w /\
      forall s, In s (listeners w') <->
                In s (listeners w) /\ contract r <> Some (sub_contract s)
  | DoRerun _ _ => next_handle w <= next_handle w'
  | _ => listeners w' = listeners w /\ next_handle w' = next_handle w
  end.
Proof.
  intros w'. subst w'.
  destruct a as [o|r o|r row col send|r i j send|r rd|request|r o|r o|r|ev rd];
    simpl.
  - apply registry_unchanged.
    unfold connectWallet, try_catch_finally, connectWallet_try,
      setLoading, setAccount, setMessage. preserves_registry.
  - apply registry_unchanged.
    unfold joinGame, try_catch_finally, joinGame_try, setLoading, setMessage.
    preserves_registry.
  - apply registry_unchanged.
    unfold makeMove, try_catch_finally, makeMove_try, setLoading, setMessage.
    preserves_registry.
  - apply registry_unchanged. unfold cellClick.
    destruct (cell_rendered r i j) as [cell|]; [|apply preserves_ret].
    destruct (negb (loading r) && is_zero cell); [|apply preserves_ret].
    unfold makeMove, try_catch_finally, makeMove_try, setLoading, setMessage.
    preserves_registry.
  - apply registry_unchanged, updateGameState_preserves; preserves_side.
  - apply registry_unchanged.
    unfold addMonadNetwork, addMonadNetwork_try, setMessage. preserves_registry.
  - unfold effect. rewrite exec_detached. apply init_listeners.
  - unfold exec, rerun.
    destruct (same_account (account (ui w)) (account r)); [simpl; lia|].
    unfold bind.
    assert (Hc : next_handle (snd (cleanup r w)) = next_handle w)
      by (unfold cleanup; destruct (contract r); reflexivity).
    assert (Hn : fst (cleanup r w) = Normal tt)
      by (unfold cleanup; destruct (contract r); reflexivity).
    destruct (cleanup r w) as [res w1]; simpl in *. subst res.
    change (next_handle w <= next_handle (exec (effect formatEther (ui w) o) w1)).
    unfold effect. rewrite exec_detached.
    destruct (init_listeners formatEther (ui w) o w1)
      as [(_ & _ & H)|(_ & _ & H)]; lia.
  - unfold exec, cleanup. destruct (contract r) as [c|]; simpl.
    + split; [reflexivity|]. intros s. rewrite filter_In.
      split; intros [Hin H]; (split; [exact Hin|]).
      * intros E. inversion E; subst c.
        rewrite Nat.eqb_refl in H. discriminate.
      * destruct (Nat.eqb_spec (sub_contract s) c) as [E|]; [|reflexivity].
        exfalso; apply H; rewrite E; reflexivity.
    + split; [reflexivity|]. intros s. split; [|tauto].
      intros Hin. split; [exact Hin | discriminate].
  - apply registry_unchanged. apply preserves_emit; try preserves_side.
    intros s. apply listener_preserves; preserves_side.
Qed.

(** X12, for the initialization of the first render, a cleanup that
    removes the listeners of object 0 and keeps those of object 1, and a
    move. *)
Lemma listeners_written_by_effect_only_witness :
  let formatEther := fun _ : Z => "0.1" in
  let o := authorized "0xA11CE" in
  let r1 := with_contract (Some 0) initialState in
  let w2 := mkWorld r1 2
              (subscriptions_of 0 initialState ++ subscriptions_of 1 r1)%list
              [] [] in
  listeners (exec (effect formatEther initialState o) initialWorld) =
  subscriptions_of 0 initialState /\
  (In (mkSubscription 1 MoveMade r1) (listeners (exec (cleanup r1) w2)) /\
   ~ In (mkSubscription 0 MoveMade initialState)
        (listeners (exec (cleanup r1) w2))) /\
  listeners (exec (makeMove r1 0 0 (fun _ _ => Rejected (mkError "no"))) w2)
  = listeners w2.
Proof.
  intros formatEther o r1 w2.
  pose proof (listeners_written_by_effect_only formatEther
                (DoEffect initialState o) initialWorld) as He.
  pose proof (listeners_written_by_effect_only formatEther
                (DoCleanup r1) w2) as Hc.
  pose proof (listeners_written_by_effect_only formatEther
                (DoMakeMove r1 0 0 (fun _ _ => Rejected (mkError "no"))) w2)
    as Hm.
  cbv beta iota zeta in He, Hc, Hm.
  destruct Hc as [_ Hc].
  split; [|split; [split|]].
  - destruct He as [(_ & H & _)|(Hn & _)]; [exact H|].
    exfalso; apply Hn. repeat split; eexists; reflexivity.
  - apply (proj2 (Hc (mkSubscription 1 MoveMade r1))). split; [|discriminate].
    do 4 right. left. reflexivity.
  - intros Hin.
    destruct (proj1 (Hc (mkSubscription 0 MoveMade initialState)) Hin)
      as [_ Hne].
    apply Hne. reflexivity.
  - exact (proj1 Hm).
Defined.

(** An invariant of the React state that the refresh keeps is kept by the
    listeners and by the events. *)
Lemma emit_keeps I ev rd :
  (forall m, keeps I (setMessage m)) ->
  (forall r, keeps I (updateGameState r rd)) ->
  keeps I (emit ev rd).
Proof.
  intros Hm Hu. apply keeps_emit. intros sub.
  destruct ev; simpl; unfold onGameStarted, onMoveMade, onGameEnded.
  - apply keeps_bind; [apply Hm | intros; apply keeps_detached, Hu].
  - apply keeps_detached, Hu.
  - apply keeps_bind; [apply Hm | intros; apply keeps_detached, Hu].
Qed.

Lemma keeps_final {A} I (c : js A) w : keeps I c -> I (ui w) -> I (ui (exec c w)).
Proof. intros H Hw. apply (H w Hw). Qed.

(** X13. The session is written by the effect and by [connectWallet]
    only.  [joinGame], [makeMove], a click on a square,
    [updateGameState], [addMonadNetwork], the cleanup and the contract
    events leave [contract], [account] and [stakeAmount] as they are;
    [connectWallet] writes [account] but neither [contract] nor
    [stakeAmount]. *)
Theorem session_written_by_effect_and_connectWallet
    (formatEther : Z -> string) (a : action) (w : world) :
  let s' := ui (exec (perform formatEther a) w) in
  match a with
  | DoEffect _ _ | DoRerun _ _ => True
  | DoConnectWallet _ =>
      contract s' = contract (ui w) /\ stakeAmount s' = stakeAmount (ui w)
  | _ =>
      contract s' = contract (ui w) /\ account s' = account (ui w) /\
      stakeAmount s' = stakeAmount (ui w)
  end.
Proof.
  intros s'. subst s'.
  set (I := fun s : AppState =>
              contract s = contract (ui w) /\ account s = account (ui w) /\
              stakeAmount s = stakeAmount (ui w)).
  assert (Hw : I (ui w)) by (repeat split).
  assert (Hu : forall r rd, keeps I (updateGameState r rd))
    by (intros; unfold updateGameState, updateGameState_try; keeps_branching).
  destruct a as [o|r o|r row col send|r i j send|r rd|request|r o|r o|r|ev rd];
    simpl; try exact Logic.I.
  - apply (keeps_final
             (fun s => contract s = contract (ui w) /\
                       stakeAmount s = stakeAmount (ui w))
             (connectWallet o) w); [|split; reflexivity].
    unfold connectWallet, try_catch_finally, connectWallet_try. keeps_branching.
  - apply (keeps_final I); [|exact Hw].
    unfold joinGame, try_catch_finally, joinGame_try. keeps_branching.
  - apply (keeps_final I); [|exact Hw].
    unfold makeMove, try_catch_finally, makeMove_try. keeps_branching.
  - apply (keeps_final I); [|exact Hw]. unfold cellClick.
    destruct (cell_rendered r i j) as [cell|]; [|apply keeps_ret].
    destruct (negb (loading r) && is_zero cell); [|apply keeps_ret].
    unfold makeMove, try_catch_finally, makeMove_try. keeps_branching.
  - apply (keeps_final I); [apply Hu | exact Hw].
  - apply (keeps_final I); [|exact Hw].
    unfold addMonadNetwork, addMonadNetwork_try. keeps_branching.
  - apply (keeps_final I); [apply keeps_cleanup | exact Hw].
  - apply (keeps_final I); [|exact Hw].
    apply emit_keeps; [intros; keeps_setter | intros; apply Hu].
Qed.

Lemma guarded_ends_idle (rest : js unit) handler w :
  loading (ui (exec (try_catch_finally (setLoading true ;; rest) handler
                                       (setLoading false)) w)) = false.
Proof.
  unfold exec, try_catch_finally, try_finally, try_catch, bind. simpl.
  destruct (rest _) as [[u|e] w1]; simpl; [reflexivity|].
  destruct (handler e w1) as [[u|e'] w2]; reflexivity.
Qed.

Lemma perform_loading formatEther a w :
  let s' := ui (exec (perform formatEther a) w) in
  match a with
  | DoConnectWallet _ | DoJoinGame _ _ | DoMakeMove _ _ _ _ => loading s' = false
  | DoCellClick _ _ _ _ => loading s' = false \/ loading s' = loading (ui w)
  | _ => loading s' = loading (ui w)
  end.
Proof.
  intros s'. subst s'.
  set (I := fun s : AppState => loading s = loading (ui w)).
  assert (Hu : forall r rd, keeps I (updateGameState r rd))
    by (intros; unfold updateGameState, updateGameState_try; keeps_branching).
  assert (Hl : forall r rd, keeps I (detached (updateGameState r rd)))
    by (intros; apply keeps_detached, Hu).
  assert (He : forall r o, keeps I (effect formatEther r o)).
  { intros r o. unfold effect, init, init_try.
    apply keeps_detached, keeps_try_catch; [|keeps_branching].
    repeat first
      [ apply Hl | progress intros
      | apply keeps_bind | apply keeps_await | apply keeps_sync
      | apply keeps_ret | apply keeps_new_Contract | apply keeps_on
      | keeps_setter
      | match goal with
        | |- keeps _ (match ?x with _ => _ end) => destruct x
        | |- keeps _ (if ?b then _ else _) => destruct b
        end ]. }
  destruct a as [o|r o|r row col send|r i j send|r rd|request|r o|r o|r|ev rd];
    simpl.
  - apply guarded_ends_idle.
  - apply guarded_ends_idle.
  - apply guarded_ends_idle.
  - unfold cellClick.
    destruct (cell_rendered r i j) as [cell|]; [|right; reflexivity].
    destruct (negb (loading r) && is_zero cell); [|right; reflexivity].
    left. rewrite exec_detached. apply guarded_ends_idle.
  - apply (keeps_final I); [apply Hu | reflexivity].
  - apply (keeps_final I); [|reflexivity].
    unfold addMonadNetwork, addMonadNetwork_try. keeps_branching.
  - apply (keeps_final I); [apply He | reflexivity].
  - apply (keeps_final I); [|reflexivity].
    apply keeps_rerun. intros r'. apply He.
  - apply (keeps_final I); [apply keeps_cleanup | reflexivity].
  - apply (keeps_final I); [|reflexivity].
    apply emit_keeps; [intros; keeps_setter | intros; apply Hu].
Qed.

(** X14. The busy flag is written by [connectWallet], [joinGame] and
    [makeMove] only, and each of them leaves it false.  A refresh, an
    initialization, a cleanup, [addMonadNetwork] and the contract events
    never change [loading], and a click on a square either does nothing
    or is a [makeMove].  So when the operations run one after the other,
    [loading] is false whenever none of them is running. *)
Theorem loading_written_by_guarded_operations_only
    (formatEther : Z -> string) :
  (forall a w,
      let s' := ui (exec (perform formatEther a) w) in
      match a with
      | DoConnectWallet _ | DoJoinGame _ _ | DoMakeMove _ _ _ _ =>
          loading s' = false
      | DoCellClick _ _ _ _ => loading s' = false \/ loading s' = loading (ui w)
      | _ => loading s' = loading (ui w)
      end) /\
  (forall l, loading (ui (run formatEther l initialWorld)) = false).
Proof.
  split; [apply perform_loading|].
  assert (G : forall l w, loading (ui w) = false ->
                          loading (ui (run formatEther l w)) = false).
  { induction l as [|a l IH]; intros w Hw; simpl; [exact Hw|].
    apply IH. pose proof (perform_loading formatEther a w) as H.
    destruct a; simpl in H |- *; try exact H; try (rewrite H; exact Hw).
    destruct H as [H|H]; [exact H | rewrite H; exact Hw]. }
  intros l. apply G. reflexivity.
Qed.

(** ** The initialization, step by step *)

(** An initialization whose five calls succeed. *)
Lemma init_run formatEther r o w chainId stake accounts :
  Init.getProvider o = Normal tt ->
  Init.getNetwork o = Fulfilled chainId ->
  Init.getSigner o = Normal tt ->
  Init.stakeAmount o = Fulfilled stake ->
  Init.listAccounts o = Fulfilled accounts ->
  exec (init formatEther r o) w =
  let c := next_handle w in
  let s1 := if negb (chainId =? 1234)%Z
            then with_message "Please switch to Monad Testnet in MetaMask" (ui w)
            else ui w in
  let s2 := with_contract (Some c) s1 in
  let s3 := with_stakeAmount (formatEther stake) s2 in
  let w3 := fun s => mkWorld s (S c)
                       (listeners w ++ subscriptions_of c r)%list (calls w)
                       (trace w ++ [ui w; s2; s3])%list in
  match accounts with
  | [] => w3 s3
  | a :: _ =>
      exec (updateGameState r (Init.refresh o))
           (w3 (with_message "Connected to wallet" (with_account (Some a) s3)))
  end.
Proof.
  intros Hp Hn Hs Hst Hl.
  unfold exec, init, init_try, try_catch, bind, sync, await, new_Contract.
  rewrite Hp, Hn, Hs, Hst, Hl. unfold subscriptions_of, suspended.
  destruct (negb (chainId =? 1234)%Z); cbn -[detached updateGameState];
    destruct accounts as [|a accounts]; cbn -[detached updateGameState];
    try rewrite detached_run; unfold suspended; cbn -[updateGameState];
    rewrite (app_three (listeners w)), (app_three (trace w)); reflexivity.
Qed.

(** X15. An initialization that succeeds and finds no authorized account
    creates a new contract object and stores it as [contract], stores the
    formatted stake, registers its three listeners, and writes nothing
    else - except on a chain other than 1234, where the message becomes
    'Please switch to Monad Testnet in MetaMask'.  The chain check only
    warns: contract object, stake and listeners are the same on every
    chain. *)
Theorem init_without_account
    (formatEther : Z -> string) (r : AppState) (o : Init.oracle) (w : world)
    (chainId stake : Z)
    (Hp : Init.getProvider o = Normal tt)
    (Hn : Init.getNetwork o = Fulfilled chainId)
    (Hs : Init.getSigner o = Normal tt)
    (Hst : Init.stakeAmount o = Fulfilled stake)
    (Hl : Init.listAccounts o = Fulfilled []) :
  let w' := exec (init formatEther r o) w in
  ui w' =
  with_stakeAmount (formatEther stake)
    (with_contract (Some (next_handle w))
       (if (chainId =? 1234)%Z then ui w
        else with_message "Please switch to Monad Testnet in MetaMask" (ui w))) /\
  listeners w' = (listeners w ++ subscriptions_of (next_handle w) r)%list /\
  next_handle w' = S (next_handle w) /\
  calls w' = calls w.
Proof.
  intros w'. subst w'.
  rewrite (init_run _ _ _ _ _ _ _ Hp Hn Hs Hst Hl). simpl.
  destruct (chainId =? 1234)%Z; simpl; repeat split.
Qed.

(** X15, on the expected chain and on another one. *)
Lemma init_without_account_witness :
  let formatEther := fun _ : Z => "0.1" in
  let o := fun chainId =>
             Init.mkOracle (Normal tt) (Fulfilled chainId) (Normal tt)
               (Fulfilled 100000000000000000%Z) (Fulfilled []) board_in_play in
  message (ui (exec (init formatEther initialState (o 1234%Z)) initialWorld)) =
  "Connect your wallet to play" /\
  message (ui (exec (init formatEther initialState (o 1%Z)) initialWorld)) =
  "Please switch to Monad Testnet in MetaMask" /\
  listeners (exec (init formatEther initialState (o 1%Z)) initialWorld) =
  subscriptions_of 0 initialState.
Proof.
  intros formatEther o.
  destruct (init_without_account formatEther initialState (o 1234%Z)
              initialWorld 1234%Z 100000000000000000%Z
              eq_refl eq_refl eq_refl eq_refl eq_refl) as (E1 & _).
  destruct (init_without_account formatEther initialState (o 1%Z)
              initialWorld 1%Z 100000000000000000%Z
              eq_refl eq_refl eq_refl eq_refl eq_refl) as (E2 & L2 & _).
  split; [rewrite E1; reflexivity|]. split; [rewrite E2; reflexivity|].
  exact L2.
Defined.

(** X16. An initialization that succeeds and finds an authorized account
    stores the first such account and then refreshes with the [contract] of
    the render that runs it, not with the object it has just created.  On
    the first render that [contract] is [null]: the refresh fails at once,
    the message ends as the text of the [TypeError] and board, turn and
    phase are not fetched.  On a render that holds a contract object the
    message ends as 'Connected to wallet' when the three reads succeed and
    as the message of the first read error otherwise.  In every case a
    wrong-chain warning set earlier in the same initialization is
    overwritten. *)
Theorem init_with_authorized_account
    (formatEther : Z -> string) (r : AppState) (o : Init.oracle) (w : world)
    (chainId stake : Z) (a : string) (others : list string)
    (Hp : Init.getProvider o = Normal tt)
    (Hn : Init.getNetwork o = Fulfilled chainId)
    (Hs : Init.getSigner o = Normal tt)
    (Hst : Init.stakeAmount o = Fulfilled stake)
    (Hl : Init.listAccounts o = Fulfilled (a :: others)) :
  let s' := ui (exec (init formatEther r o) w) in
  account s' = Some a /\
  contract s' = Some (next_handle w) /\
  stakeAmount s' = formatEther stake /\
  match contract r with
  | None =>
      message s' = err_message (TypeError_null "getBoard") /\
      gameView s' = gameView (ui w)
  | Some _ =>
      match all_reads (Init.refresh o) with
      | Fulfilled (boardState, turn, state) =>
          message s' = "Connected to wallet" /\
          gameView s' = (map (fun row => map cell_view row) boardState,
                         turn_view turn, state_view state)
      | Rejected e =>
          message s' = err_message e /\ gameView s' = gameView (ui w)
      end
  end.
Proof.
  intros s'. subst s'.
  rewrite (init_run _ _ _ _ _ _ _ Hp Hn Hs Hst Hl). cbv zeta. unfold exec.
  destruct (contract r) as [c|] eqn:Hc.
  - destruct (all_reads (Init.refresh o)) as [[[b t] st]|e] eqn:Hr.
    + rewrite (updateGameState_fulfilled _ _ _ _ _ _ _ Hc Hr). simpl.
      destruct (negb (chainId =? 1234)%Z); repeat split.
    + rewrite (updateGameState_rejected _ _ _ _ _ Hc Hr). simpl.
      destruct (negb (chainId =? 1234)%Z); repeat split.
  - rewrite (updateGameState_null _ _ _ Hc). simpl.
    destruct (negb (chainId =? 1234)%Z); repeat split.
Qed.

(** X16, for the first render on a wrong chain and for a later render. *)
Lemma init_with_authorized_account_witness :
  let formatEther := fun _ : Z => "0.1" in
  let o := Init.mkOracle (Normal tt) (Fulfilled 1%Z) (Normal tt)
             (Fulfilled 100000000000000000%Z) (Fulfilled ["0xA11CE"])
             board_in_play in
  let later := with_contract (Some 0) initialState in
  message (ui (exec (init formatEther initialState o) initialWorld)) =
  "Cannot read properties of null (reading 'getBoard')" /\
  gameState (ui (exec (init formatEther initialState o) initialWorld)) =
  "waiting" /\
  message (ui (exec (init formatEther later o) (mkWorld later 1 [] [] []))) =
  "Connected to wallet" /\
  gameState (ui (exec (init formatEther later o) (mkWorld later 1 [] [] []))) =
  "playing".
Proof.
  intros formatEther o later.
  destruct (init_with_authorized_account formatEther initialState o
              initialWorld 1%Z 100000000000000000%Z "0xA11CE" []
              eq_refl eq_refl eq_refl eq_refl eq_refl) as (_ & _ & _ & H1).
  destruct (init_with_authorized_account formatEther later o
              (mkWorld later 1 [] [] []) 1%Z 100000000000000000%Z "0xA11CE" []
              eq_refl eq_refl eq_refl eq_refl eq_refl) as (_ & _ & _ & H2).
  vm_compute in H1, H2. destruct H1 as [M1 V1]. destruct H2 as [M2 V2].
  split; [exact M1|]. split; [|split; [exact M2|]].
  - exact (f_equal snd V1).
  - exact (f_equal snd V2).
Defined.

(** X17. How far a failed initialization gets.  If it fails before the
    contract object is created, nothing but the message changes.  If the
    read of the stake fails, the new object is already stored as
    [contract] but no listener is registered, and stake and account are
    what they were.  If the listing of the accounts fails, the object is
    stored, the stake is stored and the three listeners are registered,
    and the account is what it was.  The message is in each case the one
    [init] shows for the error. *)
Theorem init_failure
    (formatEther : Z -> string) (r : AppState) (o : Init.oracle) (w : world)
    (e : error) :
  let w' := exec (init formatEther r o) w in
  (fails_before_contract o e ->
   ui w' = with_message (init_message e) (ui w) /\
   listeners w' = listeners w /\ next_handle w' = next_handle w) /\
  (forall chainId,
      Init.getProvider o = Normal tt -> Init.getNetwork o = Fulfilled chainId ->
      Init.getSigner o = Normal tt -> Init.stakeAmount o = Rejected e ->
      ui w' = with_message (init_message e)
                (with_contract (Some (next_handle w)) (ui w)) /\
      listeners w' = listeners w) /\
  (forall chainId stake,
      Init.getProvider o = Normal tt -> Init.getNetwork o = Fulfilled chainId ->
      Init.getSigner o = Normal tt -> Init.stakeAmount o = Fulfilled stake ->
      Init.listAccounts o = Rejected e ->
      ui w' = with_message (init_message e)
                (with_stakeAmount (formatEther stake)
                   (with_contract (Some (next_handle w)) (ui w))) /\
      listeners w' = (listeners w ++ subscriptions_of (next_handle w) r)%list).
Proof.
  intros w'. subst w'. split; [|split].
  - intros [Hp|[[Hp Hn]|(Hp & (chainId & Hn) & Hs)]];
      unfold exec, init, init_try, try_catch, bind, sync, await.
    + rewrite Hp. repeat split.
    + rewrite Hp, Hn. repeat split.
    + rewrite Hp, Hn, Hs. simpl.
      destruct (negb (chainId =? 1234)%Z); repeat split.
  - intros chainId Hp Hn Hs Hst.
    unfold exec, init, init_try, try_catch, bind, sync, await, new_Contract.
    rewrite Hp, Hn, Hs, Hst. simpl.
    destruct (negb (chainId =? 1234)%Z); repeat split.
  - intros chainId stake Hp Hn Hs Hst Hl.
    unfold exec, init, init_try, try_catch, bind, sync, await, new_Contract.
    rewrite Hp, Hn, Hs, Hst, Hl. unfold subscriptions_of. simpl.
    destruct (negb (chainId =? 1234)%Z); simpl;
      (split; [reflexivity | apply app_three]).
Qed.

(** X17, when the read of the stake is rejected on the first render. *)
Lemma init_failure_witness :
  let formatEther := fun _ : Z => "0.1" in
  let e := mkError "call revert exception" in
  let o := Init.mkOracle (Normal tt) (Fulfilled 1234%Z) (Normal tt)
             (Rejected e) (Fulfilled ["0xA11CE"]) board_in_play in
  let w' := exec (init formatEther initialState o) initialWorld in
  contract (ui w') = Some 0 /\ listeners w' = [] /\
  account (ui w') = None /\ message (ui w') = "call revert exception".
Proof.
  intros formatEther e o w'.
  destruct (init_failure formatEther initialState o initialWorld e)
    as (_ & H & _).
  destruct (H 1234%Z eq_refl eq_refl eq_refl eq_refl) as [E L].
  fold w' in E, L. rewrite E.
  split; [reflexivity|]. split; [exact L|]. split; reflexivity.
Defined.

(** ** The effect runs again only when the account changes *)

Lemma updateGameState_account r rd w :
  account (ui (exec (updateGameState r rd) w)) = account (ui w).
Proof.
  apply (keeps_final (fun s => account s = account (ui w))); [|reflexivity].
  unfold updateGameState, updateGameState_try. keeps_branching.
Qed.

(** [init] writes the account only with the first listed account. *)
Lemma init_account formatEther r o w :
  account (ui (exec (init formatEther r o) w)) = account (ui w) \/
  exists a others,
    Init.listAccounts o = Fulfilled (a :: others) /\
    account (ui (exec (init formatEther r o) w)) = Some a.
Proof.
  destruct (Init.getProvider o) as [[]|e1] eqn:Hp;
    [|left; unfold exec, init, init_try, try_catch, bind, sync;
      rewrite Hp; reflexivity].
  destruct (Init.getNetwork o) as [chainId|e2] eqn:Hn;
    [|left; unfold exec, init, init_try, try_catch, bind, sync, await;
      rewrite Hp, Hn; reflexivity].
  destruct (Init.getSigner o) as [[]|e3] eqn:Hs;
    [|left; unfold exec, init, init_try, try_catch, bind, sync, await;
      rewrite Hp, Hn, Hs; simpl;
      destruct (negb (chainId =? 1234)%Z); reflexivity].
  destruct (Init.stakeAmount o) as [stake|e4] eqn:Hst;
    [|left; unfold exec, init, init_try, try_catch, bind, sync, await,
        new_Contract;
      rewrite Hp, Hn, Hs, Hst; simpl;
      destruct (negb (chainId =? 1234)%Z); reflexivity].
  destruct (Init.listAccounts o) as [[|a others]|e5] eqn:Hl.
  - left. rewrite (init_run _ _ _ _ _ _ _ Hp Hn Hs Hst Hl). simpl.
    destruct (negb (chainId =? 1234)%Z); reflexivity.
  - right. exists a, others. split; [reflexivity|].
    rewrite (init_run _ _ _ _ _ _ _ Hp Hn Hs Hst Hl). cbv zeta.
    rewrite updateGameState_account. reflexivity.
  - left.
    unfold exec, init, init_try, try_catch, bind, sync, await, new_Contract.
    rewrite Hp, Hn, Hs, Hst, Hl. simpl.
    destruct (negb (chainId =? 1234)%Z); reflexivity.
Qed.

(** X18. The effect settles.  Its dependency is [account], and an
    initialization writes [account] only with the first account the wallet
    lists.  So once the state holds an account and the wallet lists that
    same account first (or lists none, or the initialization fails), the
    initialization leaves the account as it is and React does not run the
    effect again: no cleanup, no further initialization. *)
Theorem effect_settles
    (formatEther : Z -> string) (w : world) (o : Init.oracle) (a : string)
    (Ha : account (ui w) = Some a)
    (Hsame : forall b others,
        Init.listAccounts o = Fulfilled (b :: others) -> b = a) :
  let w1 := exec (effect formatEther (ui w) o) w in
  account (ui w1) = Some a /\
  forall o', exec (rerun formatEther (ui w) o') w1 = w1.
Proof.
  intros w1.
  assert (E : account (ui w1) = Some a).
  { subst w1. unfold effect. rewrite exec_detached.
    destruct (init_account formatEther (ui w) o w) as [H|(b & others & Hl & H)].
    - rewrite H. exact Ha.
    - rewrite H. f_equal. apply (Hsame b others Hl). }
  split; [exact E|]. intros o'. unfold exec, rerun.
  rewrite E, Ha. simpl. rewrite String.eqb_refl. reflexivity.
Qed.

(** X18, after the account change of the first mount: the second
    initialization lists the same account, and nothing runs after it. *)
Lemma effect_settles_witness :
  let formatEther := fun _ : Z => "0.1" in
  let o := authorized "0xA11CE" in
  let w1 := exec (effect formatEther initialState o) initialWorld in
  let w2 := exec (effect formatEther (ui w1) o) w1 in
  account (ui w1) = Some "0xA11CE" /\
  exec (rerun formatEther (ui w1) o) w2 = w2.
Proof.
  intros formatEther o w1 w2.
  assert (Ha : account (ui w1) = Some "0xA11CE") by (vm_compute; reflexivity).
  split; [exact Ha|].
  refine (proj2 (effect_settles formatEther w1 o "0xA11CE" Ha _) o).
  intros b others H. inversion H. reflexivity.
Defined.

(** ** What the listeners announce *)

Lemma is_account_true x a : is_account x a = true <-> a = Some x.
Proof.
  destruct a as [y|]; simpl.
  - rewrite String.eqb_eq. split; [intros ->; reflexivity|].
    intros H; inversion H; reflexivity.
  - split; discriminate.
Qed.

(** X19. The listeners decide by the account of the render that
    registered them, compared as an exact string.  When the refresh they
    start goes through, [GameStarted] leaves the message 'Game started! You
    are O' if [playerO] is that account and 'Game started! You are X'
    otherwise (also for an account that is neither player); [GameEnded]
    without a draw leaves 'You won!', drawn in green, if [winner] is that
    account and 'You lost!', drawn in red, otherwise.  A listener
    registered while the account was still [null] thus tells everyone 'You
    are X' and 'You lost!'.  With [isDraw] true the winner is not looked
    at. *)
Theorem listeners_announce
    (r : AppState) (w : world) (rd : Contract.reads) (c : handle)
    (boardState : list (list Z)) (turn state : Z)
    (Hc : contract r = Some c)
    (Hboard : outcome (Contract.getBoard rd) = Fulfilled boardState)
    (Hturn : outcome (Contract.currentTurn rd) = Fulfilled turn)
    (Hstate : outcome (Contract.gameState rd) = Fulfilled state) :
  (forall playerX playerO,
      let s' := ui (exec (onGameStarted r playerX playerO rd) w) in
      (account r = Some playerO -> message s' = "Game started! You are O") /\
      (account r <> Some playerO -> message s' = "Game started! You are X")) /\
  (forall winner,
      let s' := ui (exec (onGameEnded r winner false rd) w) in
      (account r = Some winner ->
       message s' = "You won!" /\ View.status_color (render s') = "#4caf50") /\
      (account r <> Some winner ->
       message s' = "You lost!" /\ View.status_color (render s') = "#f44336")) /\
  (forall winner winner',
      ui (exec (onGameEnded r winner true rd) w) =
      ui (exec (onGameEnded r winner' true rd) w)).
Proof.
  assert (Hr : all_reads rd = Fulfilled (boardState, turn, state))
    by (apply Promise_all_fulfilled; assumption).
  assert (M : forall m,
             message (ui (exec (setMessage m ;; detached (updateGameState r rd)) w))
             = m).
  { intros m. unfold exec, bind. simpl. rewrite detached_run. unfold exec.
    rewrite (updateGameState_fulfilled _ _ _ _ _ _ _ Hc Hr). reflexivity. }
  split; [|split].
  - intros playerX playerO s'. subst s'. unfold onGameStarted. rewrite M.
    split; intros H.
    + apply is_account_true in H. rewrite H. reflexivity.
    + destruct (is_account playerO (account r)) eqn:E; [|reflexivity].
      apply is_account_true in E. contradiction.
  - intros winner s'. subst s'. unfold onGameEnded, render.
    cbn [View.status_color]. rewrite M. split; intros H.
    + apply is_account_true in H. rewrite H. split; reflexivity.
    + destruct (is_account winner (account r)) eqn:E;
        [apply is_account_true in E; contradiction|]. split; reflexivity.
  - intros winner winner'. reflexivity.
Qed.

(** X19, for the winner, for the same address in another letter case, and
    for a render without account. *)
Lemma listeners_announce_witness :
  let r := with_contract (Some 0) (with_account (Some "0xa11ce") initialState) in
  let r0 := with_contract (Some 0) initialState in
  let w := mkWorld r 1 [] [] [] in
  message (ui (exec (onGameEnded r "0xa11ce" false board_in_play) w)) =
  "You won!" /\
  message (ui (exec (onGameEnded r "0xA11CE" false board_in_play) w)) =
  "You lost!" /\
  message (ui (exec (onGameStarted r0 "0xb0b" "0xa11ce" board_in_play) w)) =
  "Game started! You are X".
Proof.
  intros r r0 w.
  destruct (listeners_announce r w board_in_play 0 _ _ _
              eq_refl eq_refl eq_refl eq_refl) as (_ & He & _).
  destruct (listeners_announce r0 w board_in_play 0 _ _ _
              eq_refl eq_refl eq_refl eq_refl) as (Hs & _ & _).
  split; [exact (proj1 (proj1 (He "0xa11ce") eq_refl))|].
  split.
  - apply (proj2 (He "0xA11CE")). discriminate.
  - apply (proj2 (Hs "0xb0b" "0xa11ce")). discriminate.
Defined.

(** ** The cleanup and the listeners of its own initialization *)

(** X20. The general form of the defect shown at C6, for any render
    whose [contract], if any, is an object created earlier: when the
    initialization started by the effect of that render reaches its
    registrations, each of the three listeners it registers is still
    registered after the cleanup of that same effect. *)
Theorem cleanup_never_removes_own_listeners
    (formatEther : Z -> string) (r : AppState) (o : Init.oracle) (w : world)
    (Hfresh : forall c, contract r = Some c -> c < next_handle w)
    (Hreach : reaches_subscriptions o) :
  let w' := exec (cleanup r) (exec (effect formatEther r o) w) in
  In (mkSubscription (next_handle w) GameStarted r) (listeners w') /\
  In (mkSubscription (next_handle w) MoveMade r) (listeners w') /\
  In (mkSubscription (next_handle w) GameEnded r) (listeners w').
Proof.
  intros w'. subst w'.
  repeat split;
    apply (own_listeners_survive_cleanup formatEther r o w Hfresh Hreach);
    simpl; auto.
Qed.

(** X20, for a render that holds object 0 while object 1 is created. *)
Lemma cleanup_never_removes_own_listeners_witness :
  let formatEther := fun _ : Z => "0.1" in
  let r := with_contract (Some 0) (with_account (Some "0xA11CE") initialState) in
  let w := mkWorld r 1 (subscriptions_of 0 initialState) [] [] in
  let w' := exec (cleanup r) (exec (effect formatEther r (authorized "0xA11CE")) w) in
  In (mkSubscription 1 MoveMade r) (listeners w') /\
  ~ In (mkSubscription 0 MoveMade initialState) (listeners w').
Proof.
  intros formatEther r w w'.
  assert (Hfresh : forall c, contract r = Some c -> c < next_handle w).
  { intros c H. inversion H. simpl. lia. }
  assert (Hreach : reaches_subscriptions (authorized "0xA11CE"))
    by (repeat split; eexists; reflexivity).
  destruct (cleanup_never_removes_own_listeners formatEther r
              (authorized "0xA11CE") w Hfresh Hreach) as (_ & H & _).
  split; [exact H|].
  vm_compute. intros [E|[E|[E|[]]]]; discriminate E.
Defined.

(** ** Listeners registered before a contract object was in the state *)

(** X21. A listener whose render holds no contract object - every
    listener registered by the initialization of the first render - cannot
    refresh: whatever the event and whatever the contract would answer, it
    only sets the message, and the message it leaves is the text of the
    [TypeError], which replaces the announcement it has just made.  It
    reads nothing, waits for nothing and changes nothing else. *)
Theorem stale_listener_only_reports_TypeError
    (s : subscription) (ev : event) (rd : Contract.reads) (w : world)
    (Hc : contract (sub_render s) = None) :
  exec (listener_body s ev rd) w =
  mkWorld (with_message (err_message (TypeError_null "getBoard")) (ui w))
          (next_handle w) (listeners w) (calls w) (trace w).
Proof.
  destruct ev; simpl;
    unfold exec, onGameStarted, onMoveMade, onGameEnded, bind; simpl;
    rewrite detached_run; unfold exec;
    rewrite (updateGameState_null _ _ _ Hc); reflexivity.
Qed.

(** X21, for a draw announced to a listener of the first render. *)
Lemma stale_listener_only_reports_TypeError_witness :
  let s := mkSubscription 0 GameEnded initialState in
  let w := mkWorld (with_contract (Some 0) initialState) 1 [s] [] [] in
  message (ui (exec (listener_body s (EvGameEnded "0xA11CE" true) board_in_play) w))
  = "Cannot read properties of null (reading 'getBoard')".
Proof.
  intros s w.
  rewrite (stale_listener_only_reports_TypeError s
             (EvGameEnded "0xA11CE" true) board_in_play w eq_refl).
  reflexivity.
Defined.
